(** * Token-bucket rate limiter (rate-limiting-universal, FastAPI template)

    A shallow embedding of [fastapi-rate-limiting.py]: the [RateLimiter]
    class with [connect], [check_rate_limit], [get_client_ip] and
    [get_rate_limit_key], the Redis commands it awaits, the middleware and
    the decorator built on it, the properties the specification states
    about them and further properties read off the code.

    Conventions of the embedding.
    - Python [float] values are exact rationals extended with [inf], [-inf]
      and [nan]; neither the rounding of binary64 arithmetic nor its
      overflow to an infinity is modelled, and [int / int] does not raise
      [OverflowError] on a quotient too large for a float.  Every concrete
      run below uses small integers, on which binary64 is exact.  The
      statements about refills over all inputs (C3, X3, X4, X8) are worded
      so as to hold under rounding too, with inequalities that are not
      strict and with bounds on the capacity, the window and the elapsed
      time that keep the floats finite.
    - EXPIRE takes any integer number of seconds; the server's refusal of
      one outside the signed 64-bit range is not modelled, and C8, X3 and
      X4 bound the window instead.
    - A Redis hash field holds a string.  The limiter only ever applies
      [float()] to it, so a field is represented by what [float()] makes of
      the string: a number, or a string it rejects.
    - [time.time()] at line 140 is the parameter [now].
    - Each [await] on the Redis client is a node of a command tree
      ([prog]); one interpreter runs a call alone against a store that may
      fault, another interleaves several calls at their [await] points. *)

From Stdlib Require Import ZArith QArith Lqa Lia String Ascii List
  DecimalString.
From stdpp Require Import base option list gmap strings.

Local Open Scope string_scope.

(** ** Python numbers *)

Module PyFloat.

Inductive pyfloat : Type :=
| Fin (q : Q)
| PInf
| NInf
| NaN.

Definition Qltb (a b : Q) : bool :=
  match (a ?= b)%Q with Lt => true | _ => false end.

Definition of_int (z : Z) : pyfloat := Fin (inject_Z z).

Definition neg (x : pyfloat) : pyfloat :=
  match x with
  | Fin a => Fin (- a)
  | PInf => NInf
  | NInf => PInf
  | NaN => NaN
  end.

Definition add (x y : pyfloat) : pyfloat :=
  match x, y with
  | NaN, _ | _, NaN => NaN
  | Fin a, Fin b => Fin (a + b)
  | PInf, NInf | NInf, PInf => NaN
  | PInf, _ | _, PInf => PInf
  | NInf, _ | _, NInf => NInf
  end.

Definition sub (x y : pyfloat) : pyfloat := add x (neg y).

Definition signed_inf (c : comparison) : pyfloat :=
  match c with Gt => PInf | Lt => NInf | Eq => NaN end.

Definition mul (x y : pyfloat) : pyfloat :=
  match x, y with
  | NaN, _ | _, NaN => NaN
  | Fin a, Fin b => Fin (a * b)
  | Fin a, PInf | PInf, Fin a => signed_inf (a ?= 0)%Q
  | Fin a, NInf | NInf, Fin a => signed_inf (0 ?= a)%Q
  | PInf, PInf | NInf, NInf => PInf
  | PInf, NInf | NInf, PInf => NInf
  end.

(** [x < y]; every comparison with [nan] is false. *)
Definition ltb (x y : pyfloat) : bool :=
  match x, y with
  | NaN, _ | _, NaN => false
  | Fin a, Fin b => Qltb a b
  | _, NInf => false
  | NInf, _ => true
  | PInf, _ => false
  | Fin _, PInf => true
  end.

(** [x >= y]. *)
Definition geb (x y : pyfloat) : bool :=
  match x, y with
  | NaN, _ | _, NaN => false
  | Fin a, Fin b => Qle_bool b a
  | PInf, _ => true
  | _, NInf => true
  | _, _ => false
  end.

(** The builtin [min(a, b)]: [b] replaces [a] only when [b < a]. *)
Definition py_min (a b : pyfloat) : pyfloat := if ltb b a then b else a.

(** Rounding towards zero, as [int()] does on a finite float. *)
Definition trunc (q : Q) : Z := Z.quot (Qnum q) (Zpos (Qden q)).

End PyFloat.

Import PyFloat.

(** ** Exceptions *)

(** The exception classes of redis-py that a command can raise.  In
    [redis.exceptions], [TimeoutError] and [ResponseError] derive from
    [RedisError], not from [ConnectionError]; the subclasses of
    [ConnectionError] are folded into [ConnectionError]. *)
Inductive redis_error : Type :=
| ConnectionError
| TimeoutError
| ResponseError.

Inductive exn : Type :=
| RedisError (e : redis_error)
| AttributeError
| KeyError
| ValueError
| ZeroDivisionError
| OverflowError.

(** [from redis.asyncio import ConnectionError as RedisConnectionError] *)
Definition RedisConnectionError : exn := RedisError ConnectionError.

Definition isinstance_RedisConnectionError (e : exn) : bool :=
  match e with
  | RedisError ConnectionError => true
  | _ => false
  end.

(** A Python expression: it raises or it has a value. *)
#[export] Instance raising_bind : MBind (sum exn) := fun A B f r =>
  match r with
  | inl e => inl e
  | inr a => f a
  end.

(** ** The Redis store *)

(** A hash field, seen through [float()]. *)
Inductive field : Type :=
| Num (x : pyfloat)
| Garbage (s : string).

(** The builtin [float] on a stored string. *)
Definition py_float (f : field) : exn + pyfloat :=
  match f with
  | Num x => inr x
  | Garbage _ => inl ValueError
  end.

(** [str(x)] as later read back by [float]. *)
Definition py_str (x : pyfloat) : field := Num x.

Abbreviation bucket := (gmap string field).

(** A key of the store: a hash and the time to live set by the last
    EXPIRE ([None]: the key never expires). *)
Record entry : Type := Entry { fields : bucket; ttl : option Z }.

Abbreviation store := (gmap string entry).

(** HGETALL: the hash, or the empty dict for an absent key. *)
Definition store_hgetall (s : store) (key : string) : bucket :=
  match s !! key with
  | Some e => fields e
  | None => ∅
  end.

(** HSET key f1 v1 f2 v2 ...: the named fields are overwritten, the others
    and the time to live are kept; an absent key is created without one. *)
Definition store_hset (s : store) (key : string) (mapping : bucket) : store :=
  <[key := Entry (mapping ∪ store_hgetall s key) (s !! key ≫= ttl)]> s.

(** EXPIRE key seconds: nothing on an absent key; a time to live that is
    not positive deletes the key. *)
Definition store_expire (s : store) (key : string) (seconds : Z) : store :=
  match s !! key with
  | None => s
  | Some e =>
      if (seconds <=? 0)%Z then delete key s
      else <[key := Entry (fields e) (Some seconds)]> s
  end.

(** TTL key, right after the command that set it. *)
Definition store_ttl (s : store) (key : string) : option Z :=
  s !! key ≫= ttl.

(** ** Awaited commands *)

Inductive reply (X : Type) : Type :=
| Ok (x : X)
| Fault (e : redis_error).
Arguments Ok {X} x.
Arguments Fault {X} e.

(** A coroutine up to its next [await] on the client: it has returned, it
    has raised, or it waits for the reply to one command. *)
Inductive prog (A : Type) : Type :=
| Ret (a : A)
| Raise (e : exn)
| Hgetall (key : string) (k : reply bucket -> prog A)
| Hset (key : string) (mapping : bucket) (k : reply unit -> prog A)
| Expire (key : string) (seconds : Z) (k : reply unit -> prog A).
Arguments Ret {A} a.
Arguments Raise {A} e.
Arguments Hgetall {A} key k.
Arguments Hset {A} key mapping k.
Arguments Expire {A} key seconds k.

Fixpoint bind {A B : Type} (p : prog A) (f : A -> prog B) : prog B :=
  match p with
  | Ret a => f a
  | Raise e => Raise e
  | Hgetall key k => Hgetall key (fun r => bind (k r) f)
  | Hset key m k => Hset key m (fun r => bind (k r) f)
  | Expire key n k => Expire key n (fun r => bind (k r) f)
  end.

#[export] Instance prog_ret : MRet prog := @Ret.
#[export] Instance prog_bind : MBind prog := fun A B f p => bind p f.

(** [try: body  except <class> as e: handler]: [handler e] is [None] when
    [e] is not an instance of the class. *)
Fixpoint try_except {A : Type} (body : prog A) (handler : exn -> option (prog A))
  : prog A :=
  match body with
  | Ret a => Ret a
  | Raise e => match handler e with Some h => h | None => Raise e end
  | Hgetall key k => Hgetall key (fun r => try_except (k r) handler)
  | Hset key m k => Hset key m (fun r => try_except (k r) handler)
  | Expire key n k => Expire key n (fun r => try_except (k r) handler)
  end.

Definition lift {A : Type} (r : exn + A) : prog A :=
  match r with
  | inl e => Raise e
  | inr a => Ret a
  end.

Definition await {X : Type} (r : reply X) : prog X :=
  match r with
  | Ok x => Ret x
  | Fault e => Raise (RedisError e)
  end.

(** [redis.asyncio.Redis], once [connect] has assigned it. *)
Variant Redis : Type := RedisClient.

(** Attribute access on [self.redis : Optional[Redis]]. *)
Definition hgetall (r : option Redis) (key : string) : prog bucket :=
  match r with
  | None => Raise AttributeError
  | Some _ => Hgetall key await
  end.

Definition hset (r : option Redis) (key : string) (mapping : bucket) : prog unit :=
  match r with
  | None => Raise AttributeError
  | Some _ => Hset key mapping await
  end.

Definition expire (r : option Redis) (key : string) (seconds : Z) : prog unit :=
  match r with
  | None => Raise AttributeError
  | Some _ => Expire key seconds await
  end.

(** ** The limiter *)

Record RateLimiter : Type := mkRateLimiter {
  redis_url : string;
  fail_open : bool;
  redis : option Redis
}.

(** [RateLimiter(redis_url, fail_open=True)]: [__init__] leaves
    [self.redis] at [None]. *)
Definition init (url : string) (fo : bool) : RateLimiter :=
  mkRateLimiter url fo None.

(** [connect]: [Redis.from_url] only builds the client, so [self.redis] is
    assigned whether or not the following [ping] succeeds. *)
Definition connect (self : RateLimiter) : RateLimiter :=
  mkRateLimiter (redis_url self) (fail_open self) (Some RedisClient).

(** The dict returned by [check_rate_limit]. *)
Record Decision : Type := mkDecision {
  allowed : bool;
  limit : Z;
  remaining : Z;
  reset : Z;
  retry_after : Z
}.

(** [a / b] on ints. *)
Definition truediv (a b : Z) : exn + pyfloat :=
  if (b =? 0)%Z then inl ZeroDivisionError
  else inr (Fin (inject_Z a / inject_Z b)).

(** [int(x)]. *)
Definition py_int (x : pyfloat) : exn + Z :=
  match x with
  | Fin q => inr (trunc q)
  | PInf | NInf => inl OverflowError
  | NaN => inl ValueError
  end.

(** [d[name]]. *)
Definition subscript (d : bucket) (name : string) : exn + field :=
  match d !! name with
  | Some f => inr f
  | None => inl KeyError
  end.

(** [name in d]. *)
Definition contains (d : bucket) (name : string) : bool :=
  match d !! name with
  | Some _ => true
  | None => false
  end.

(** [not d]. *)
Definition is_empty (d : bucket) : bool := Nat.eqb (size d) 0.

(** Lines 155-157: the refill of an existing bucket.
<<
    elapsed = now - last_refill
    refill_rate = max_requests / window_seconds
    tokens = min(max_requests, tokens + (elapsed * refill_rate))
>> *)
Definition elapsed (now : Q) (last_refill : pyfloat) : pyfloat :=
  sub (Fin now) last_refill.

Definition refill (max_requests window_seconds : Z) (now : Q)
    (tokens last_refill : pyfloat) : exn + pyfloat :=
  refill_rate ← truediv max_requests window_seconds;
  inr (py_min (of_int max_requests)
         (add tokens (mul (elapsed now last_refill) refill_rate))).

(** The mapping written by [hset] at lines 167-170. *)
Definition bucket_mapping (tokens : pyfloat) (now : Q) : bucket :=
  {[ "tokens" := py_str tokens; "last_refill" := py_str (Fin now) ]}.

(** The two dicts of the [except] branch, lines 190-208. *)
Definition degraded (self : RateLimiter) (max_requests window_seconds : Z)
    (now : Q) : Decision :=
  if fail_open self then
    mkDecision true max_requests max_requests
      (trunc (now + inject_Z window_seconds)) 0
  else
    mkDecision false max_requests 0
      (trunc (now + inject_Z window_seconds)) window_seconds.

(** Lines 146-160: the tokens left once this request has taken one, from
    the dict that [hgetall] returned. *)
Definition take_token (max_requests window_seconds : Z) (now : Q)
    (bucket : bucket) : exn + pyfloat :=
  if is_empty bucket || negb (contains bucket "tokens") then
    inr (of_int (max_requests - 1))
  else
    tokens_s ← subscript bucket "tokens";
    tokens ← py_float tokens_s;
    last_refill_s ← subscript bucket "last_refill";
    last_refill ← py_float last_refill_s;
    tokens ← refill max_requests window_seconds now tokens last_refill;
    inr (sub tokens (of_int 1)).

(** Lines 174-185: the dict that is returned. *)
Definition response (max_requests window_seconds : Z) (now : Q)
    (tokens : pyfloat) (allowed : bool) : exn + Decision :=
  tokens_int ← py_int tokens;
  let remaining := Z.max 0 tokens_int in
  let reset := trunc (now + inject_Z window_seconds) in
  let retry_after := if negb allowed then window_seconds else 0%Z in
  inr (mkDecision allowed max_requests remaining reset retry_after).

(** Lines 187-208: [except RedisConnectionError as e]. *)
Definition except_RedisConnectionError (self : RateLimiter)
    (max_requests window_seconds : Z) (now : Q) (e : exn)
  : option (prog Decision) :=
  if isinstance_RedisConnectionError e
  then Some (Ret (degraded self max_requests window_seconds now))
  else None.

(** Lines 143-185, the body of the [try]. *)
Definition check_body (self : RateLimiter) (key : string)
    (max_requests window_seconds : Z) (now : Q) : prog Decision :=
  bucket ← hgetall (redis self) ("rate_limit:" +:+ key);
  tokens ← lift (take_token max_requests window_seconds now bucket);
  let allowed := geb tokens (of_int 0) in
  _ ← (if allowed then
         _ ← hset (redis self) ("rate_limit:" +:+ key) (bucket_mapping tokens now);
         expire (redis self) ("rate_limit:" +:+ key) (window_seconds * 2)
       else Ret tt);
  lift (response max_requests window_seconds now tokens allowed).

(** [check_rate_limit], lines 117-208. *)
Definition check_rate_limit (self : RateLimiter) (key : string)
    (max_requests window_seconds : Z) (now : Q) : prog Decision :=
  try_except (check_body self key max_requests window_seconds now)
    (except_RedisConnectionError self max_requests window_seconds now).

(** ** One call against the store *)

Inductive outcome (A : Type) : Type :=
| Returned (a : A)
| Raised (e : exn).
Arguments Returned {A} a.
Arguments Raised {A} e.

(** [faults] scripts the client: its n-th element, when it is [Some e],
    makes the n-th awaited command raise [e] without reaching the server;
    past its end every command succeeds. *)
Fixpoint run {A : Type} (p : prog A) (faults : list (option redis_error))
    (s : store) : outcome A * store :=
  match p with
  | Ret a => (Returned a, s)
  | Raise e => (Raised e, s)
  | Hgetall key k =>
      match faults with
      | Some e :: fs => run (k (Fault e)) fs s
      | _ => run (k (Ok (store_hgetall s key))) (tail faults) s
      end
  | Hset key mapping k =>
      match faults with
      | Some e :: fs => run (k (Fault e)) fs s
      | _ => run (k (Ok tt)) (tail faults) (store_hset s key mapping)
      end
  | Expire key seconds k =>
      match faults with
      | Some e :: fs => run (k (Fault e)) fs s
      | _ => run (k (Ok tt)) (tail faults) (store_expire s key seconds)
      end
  end.

(** A call with a client that answers every command. *)
Definition check (self : RateLimiter) (key : string)
    (max_requests window_seconds : Z) (now : Q) (s : store)
  : outcome Decision * store :=
  run (check_rate_limit self key max_requests window_seconds now) [] s.

(** ** Interleaved calls *)

(** One scheduling step of a coroutine: the reply to the command it awaits
    is delivered and it advances to its next [await].  A coroutine that has
    returned or raised stays as it is. *)
Definition resume {A : Type} (p : prog A) (s : store) : prog A * store :=
  match p with
  | Ret _ | Raise _ => (p, s)
  | Hgetall key k => (k (Ok (store_hgetall s key)), s)
  | Hset key mapping k => (k (Ok tt), store_hset s key mapping)
  | Expire key seconds k => (k (Ok tt), store_expire s key seconds)
  end.

(** The event loop: [schedule] lists, in order, the index of the task that
    is resumed next.  All tasks share the one store. *)
Fixpoint interleave {A : Type} (schedule : list nat) (tasks : list (prog A))
    (s : store) : list (prog A) * store :=
  match schedule with
  | [] => (tasks, s)
  | i :: rest =>
      match tasks !! i with
      | None => interleave rest tasks s
      | Some p =>
          let '(p', s') := resume p s in
          interleave rest (<[i := p']> tasks) s'
      end
  end.

Definition returned_allowed (p : prog Decision) : bool :=
  match p with
  | Ret d => allowed d
  | _ => false
  end.

Definition finished {A : Type} (p : prog A) : bool :=
  match p with
  | Ret _ | Raise _ => true
  | _ => false
  end.

(** How many of the tasks have returned [allowed = True]. *)
Definition count_allowed (tasks : list (prog Decision)) : nat :=
  length (filter (fun p => returned_allowed p = true) tasks).

(** [asyncio.gather] of [n] calls on one key. *)
Definition gather (n : nat) (self : RateLimiter) (key : string)
    (max_requests window_seconds : Z) (now : Q) : list (prog Decision) :=
  replicate n (check_rate_limit self key max_requests window_seconds now).

(** Every task is resumed once, in order: one round of the event loop. *)
Definition round (n : nat) : list nat := seq 0 n.

(** Task after task, each run through its three commands before the next
    one starts. *)
Definition one_by_one (n : nat) : list nat :=
  flat_map (fun i => [i; i; i]) (seq 0 n).

(** ** Rate-limit keys *)

(** What [get_rate_limit_key] reads of a [fastapi.Request]. *)
Record Request : Type := mkRequest {
  x_forwarded_for : option string;
  client_host : option string;
  url_path : string
}.

(** [str.isspace] on the code points a latin-1 decoded header can hold. *)
Definition is_space (c : ascii) : bool :=
  let n := nat_of_ascii c in
  ((9 <=? n)%nat && (n <=? 13)%nat) || ((28 <=? n)%nat && (n <=? 32)%nat)
  || (n =? 133)%nat || (n =? 160)%nat.

(** [s.split(sep)] for a one-character separator. *)
Fixpoint split (sep : ascii) (s : string) : list string :=
  match s with
  | EmptyString => [EmptyString]
  | String c s' =>
      if Ascii.eqb c sep then EmptyString :: split sep s'
      else match split sep s' with
           | x :: xs => String c x :: xs
           | [] => [String c EmptyString]
           end
  end.

Fixpoint lstrip (s : string) : string :=
  match s with
  | EmptyString => EmptyString
  | String c s' => if is_space c then lstrip s' else s
  end.

Fixpoint rstrip (s : string) : string :=
  match s with
  | EmptyString => EmptyString
  | String c s' =>
      match rstrip s' with
      | EmptyString => if is_space c then EmptyString else String c EmptyString
      | t => String c t
      end
  end.

(** [s.strip()]. *)
Definition strip (s : string) : string := rstrip (lstrip s).

(** [not s] on an [Optional[str]]. *)
Definition falsy (s : option string) : bool :=
  match s with
  | None | Some EmptyString => true
  | Some _ => false
  end.

(** [get_client_ip], lines 210-225. *)
Definition get_client_ip (request : Request) : exn + string :=
  match x_forwarded_for request with
  | Some (String c f) => inr (strip (hd EmptyString (split "," (String c f))))
  | _ =>
      match client_host request with
      | Some host => inr host
      | None => inl AttributeError
      end
  end.

(** [get_rate_limit_key], lines 227-262. *)
Definition get_rate_limit_key (request : Request) (strategy : string)
    (user_id : option string) : exn + string :=
  let path := url_path request in
  if String.eqb strategy "ip" then
    ip ← get_client_ip request;
    inr ("ip:" +:+ ip +:+ ":" +:+ path)
  else if String.eqb strategy "user" then
    if falsy user_id then inl ValueError
    else inr ("user:" +:+ default EmptyString user_id +:+ ":" +:+ path)
  else if String.eqb strategy "combined" then
    ip ← get_client_ip request;
    if falsy user_id then inr ("ip:" +:+ ip +:+ ":" +:+ path)
    else inr ("combined:" +:+ default EmptyString user_id +:+ ":" +:+ ip
              +:+ ":" +:+ path)
  else inl ValueError.

(** [c in s]. *)
Fixpoint mem (c : ascii) (s : string) : bool :=
  match s with
  | EmptyString => false
  | String d s' => Ascii.eqb c d || mem c s'
  end.

(** ["x" * n]. *)
Fixpoint repeat_char (c : ascii) (n : nat) : string :=
  match n with
  | O => EmptyString
  | S n' => String c (repeat_char c n')
  end.

(** ** Test harness *)

(** [for _ in range(n): await check_rate_limit(key, ...)] with a clock that
    does not advance, as in [test_exact_rate_limit_boundary]. *)
Fixpoint sequential (n : nat) (self : RateLimiter) (key : string)
    (max_requests window_seconds : Z) (now : Q) (s : store)
  : list (outcome Decision) * store :=
  match n with
  | O => ([], s)
  | S n' =>
      let '(o, s1) := check self key max_requests window_seconds now s in
      let '(os, s2) := sequential n' self key max_requests window_seconds now s1 in
      (o :: os, s2)
  end.

(** [result['allowed']] of a call, when it returned. *)
Definition allowed_of (o : outcome Decision) : option bool :=
  match o with
  | Returned d => Some (allowed d)
  | Raised _ => None
  end.

(** The server's countdown: after [dt] seconds a key whose time to live has
    run out is gone, the others have [dt] seconds less to live. *)
Definition store_elapse (dt : Z) (s : store) : store :=
  omap (fun e =>
          match ttl e with
          | None => Some e
          | Some t => if (t <=? dt)%Z then None
                      else Some (Entry (fields e) (Some (t - dt)%Z))
          end) s.

(** ** The call in direct style *)

(** The [except RedisConnectionError] clause applied to a raised [e]. *)
Definition caught (self : RateLimiter) (max_requests window_seconds : Z)
    (now : Q) (e : exn) : outcome Decision :=
  if isinstance_RedisConnectionError e
  then Returned (degraded self max_requests window_seconds now)
  else Raised e.

Definition finish (self : RateLimiter) (max_requests window_seconds : Z)
    (now : Q) (r : exn + Decision) : outcome Decision :=
  match r with
  | inl e => caught self max_requests window_seconds now e
  | inr d => Returned d
  end.

(** The scripted outcome of the [n]-th command. *)
Definition fault_at (n : nat) (faults : list (option redis_error))
  : option redis_error :=
  nth n faults None.

(** [check_rate_limit] with the store threaded by hand. *)
Definition check_direct (self : RateLimiter) (key : string)
    (max_requests window_seconds : Z) (now : Q)
    (faults : list (option redis_error)) (s : store)
  : outcome Decision * store :=
  let k := "rate_limit:" +:+ key in
  let ex := caught self max_requests window_seconds now in
  match redis self with
  | None => (Raised AttributeError, s)
  | Some _ =>
      match fault_at 0 faults with
      | Some e => (ex (RedisError e), s)
      | None =>
          match take_token max_requests window_seconds now (store_hgetall s k) with
          | inl e => (ex e, s)
          | inr tokens =>
              let fin :=
                finish self max_requests window_seconds now
                  (response max_requests window_seconds now tokens
                     (geb tokens (of_int 0))) in
              if geb tokens (of_int 0) then
                match fault_at 1 faults with
                | Some e => (ex (RedisError e), s)
                | None =>
                    let s1 := store_hset s k (bucket_mapping tokens now) in
                    match fault_at 2 faults with
                    | Some e => (ex (RedisError e), s1)
                    | None => (fin, store_expire s1 k (window_seconds * 2))
                    end
                end
              else (fin, s)
          end
      end
  end.

(** The record under [key] holds [n] whole tokens and was last refilled
    at [now]. *)
Definition holds (s : store) (key : string) (n : Z) (now : Q) : Prop :=
  exists e t l,
    s !! ("rate_limit:" +:+ key) = Some e
    /\ fields e !! "tokens" = Some (Num (Fin t)) /\ (t == inject_Z n)%Q
    /\ fields e !! "last_refill" = Some (Num (Fin l)) /\ (l == now)%Q.

(** The coroutine of an allowed request, suspended at its HSET (line 167)
    and at its EXPIRE (line 172). *)
Definition awaiting_hset (self : RateLimiter) (key : string)
    (max_requests window_seconds : Z) (now : Q) (tokens : pyfloat)
  : prog Decision :=
  try_except
    (_ ← (_ ← hset (redis self) ("rate_limit:" +:+ key) (bucket_mapping tokens now);
          expire (redis self) ("rate_limit:" +:+ key) (window_seconds * 2));
     lift (response max_requests window_seconds now tokens true))
    (except_RedisConnectionError self max_requests window_seconds now).

Definition awaiting_expire (self : RateLimiter) (key : string)
    (max_requests window_seconds : Z) (now : Q) (tokens : pyfloat)
  : prog Decision :=
  try_except
    (_ ← expire (redis self) ("rate_limit:" +:+ key) (window_seconds * 2);
     lift (response max_requests window_seconds now tokens true))
    (except_RedisConnectionError self max_requests window_seconds now).

(** The line feed character. *)
Definition newline : ascii := ascii_of_nat 10.

(** ** Records and counts used in the statements *)

(** The record under [key] has a [tokens] field that reads as the finite
    number [t] and a [last_refill] field that reads as [l]. *)
Definition well_formed (s : store) (key : string) (t l : Q) : Prop :=
  exists e,
    s !! ("rate_limit:" +:+ key) = Some e
    /\ fields e !! "tokens" = Some (Num (Fin t))
    /\ fields e !! "last_refill" = Some (Num (Fin l)).

(** [sum(1 for r in results if r['allowed'])] over the calls that
    returned. *)
Definition allowed_count (os : list (outcome Decision)) : nat :=
  length (filter (fun o => allowed_of o = Some true) os).

(** The tokens an existing bucket holds once refilled, before the request
    takes its own (line 157, on finite numbers). *)
Definition refilled (max_requests window_seconds : Z) (now t l : Q) : Q :=
  let x := (t + (now - l) * (inject_Z max_requests / inject_Z window_seconds))%Q in
  if Qltb x (inject_Z max_requests) then x else inject_Z max_requests.

(** ** Shapes of strings used in the statements *)

(** [s[:1].isspace()] and [s[-1:].isspace()]. *)
Definition starts_with_space (s : string) : bool :=
  match s with
  | EmptyString => false
  | String c _ => is_space c
  end.

Fixpoint ends_with_space (s : string) : bool :=
  match s with
  | EmptyString => false
  | String c EmptyString => is_space c
  | String _ s' => ends_with_space s'
  end.

(** [tag in ('ip', 'user', 'combined')]. *)
Definition known_strategy (strategy : string) : bool :=
  String.eqb strategy "ip" || String.eqb strategy "user"
  || String.eqb strategy "combined".

(** ** Connecting *)

(** [connect], lines 96-110.  [from_url] is what [Redis.from_url] does
    with the URL and [ping] what the first PING does; the result is the
    exception that leaves [connect], if any, and the limiter afterwards. *)
Definition connect_attempt (self : RateLimiter) (from_url : exn + Redis)
    (ping : option exn) : option exn * RateLimiter :=
  let reraise e := if negb (fail_open self) then Some e else None in
  match from_url with
  | inl e => (reraise e, self)
  | inr client =>
      let self' := mkRateLimiter (redis_url self) (fail_open self) (Some client) in
      match ping with
      | Some e => (reraise e, self')
      | None => (None, self')
      end
  end.

(** ** The middleware and the decorator *)

(** [str(n)] on an int. *)
Definition py_str_int (n : Z) : string := NilZero.string_of_int (Z.to_int n).

(** [name.lower()] on an ASCII header name. *)
Definition lower_char (c : ascii) : ascii :=
  let n := nat_of_ascii c in
  if (65 <=? n)%nat && (n <=? 90)%nat then ascii_of_nat (n + 32) else c.

Fixpoint lower (s : string) : string :=
  match s with
  | EmptyString => EmptyString
  | String c s' => String (lower_char c) (lower s')
  end.

(** One entry of the table of limits: a dict with the keys ['limit'] and
    ['window'] and, possibly, ['strategy']. *)
Record Config : Type := mkConfig {
  config_limit : Z;
  config_window : Z;
  config_strategy : option string
}.

(** Lines 66-72. *)
Definition DEFAULT_RATE_LIMITS : gmap string Config :=
  {[ "/api/auth/login" := mkConfig 5 60 (Some "ip");
     "/api/auth/register" := mkConfig 5 60 (Some "ip");
     "/api/auth/reset-password" := mkConfig 5 60 (Some "ip");
     "/api/contact" := mkConfig 5 3600 (Some "ip");
     "/api/newsletter" := mkConfig 10 3600 (Some "ip") ]}.

(** Line 75. *)
Definition SKIP_PATHS : list string :=
  ["/health"; "/metrics"; "/docs"; "/openapi.json"].

(** The body of a response: what the application behind the limiter
    produced, or the JSON of lines 319-323. *)
Inductive Content : Type :=
| Body (b : string)
| RateLimitExceeded (error message : string) (retry_after : Z).

(** A response.  [headers] holds the headers set by application code,
    under their lower-case names, as Starlette keeps them; the ones it
    derives from the body are left out. *)
Record Response : Type := mkResponse {
  status_code : Z;
  headers : gmap string string;
  content : Content
}.

(** [response.headers[name] = value]. *)
Definition set_header (response : Response) (name value : string) : Response :=
  mkResponse (status_code response) (<[lower name := value]> (headers response))
    (content response).

(** [JSONResponse(status_code=..., content=...)]. *)
Definition JSONResponse (status : Z) (c : Content) : Response :=
  mkResponse status ∅ c.

Record RateLimitMiddleware : Type := mkMiddleware {
  rate_limiter : RateLimiter;
  rate_limits : gmap string Config
}.

(** [RateLimitMiddleware.__init__], lines 271-274:
    [self.rate_limits = rate_limits or DEFAULT_RATE_LIMITS]. *)
Definition middleware_init (limiter : RateLimiter)
    (limits : option (gmap string Config)) : RateLimitMiddleware :=
  mkMiddleware limiter
    match limits with
    | None => DEFAULT_RATE_LIMITS
    | Some t => if Nat.eqb (size t) 0 then DEFAULT_RATE_LIMITS else t
    end.

(** [RateLimitMiddleware.dispatch], lines 276-334.  [call_next] is the
    rest of the application, a coroutine of its own. *)
Definition dispatch (self : RateLimitMiddleware) (request : Request)
    (call_next : Request -> prog Response) (now : Q) : prog Response :=
  let path := url_path request in
  if existsb (fun skip => String.prefix skip path) SKIP_PATHS then
    call_next request
  else
    match rate_limits self !! path with
    | None => call_next request
    | Some config =>
        let strategy := default "ip" (config_strategy config) in
        let user_id : option string := None in
        key ← lift (get_rate_limit_key request strategy user_id);
        result ← check_rate_limit (rate_limiter self) key
                   (config_limit config) (config_window config) now;
        response ←
          (if allowed result then call_next request
           else
             _ ← lift (get_client_ip request);
             Ret (JSONResponse 429
                    (RateLimitExceeded "Rate limit exceeded"
                       ("Too many requests. Please try again in "
                        +:+ py_str_int (retry_after result) +:+ " seconds.")
                       (retry_after result))));
        let response :=
          set_header response "X-RateLimit-Limit" (py_str_int (limit result)) in
        let response :=
          set_header response "X-RateLimit-Remaining"
            (py_str_int (remaining result)) in
        let response :=
          set_header response "X-RateLimit-Reset" (py_str_int (reset result)) in
        Ret (if negb (allowed result)
             then set_header response "Retry-After"
                    (py_str_int (retry_after result))
             else response)
    end.

(** [HTTPException(status_code, detail, headers)] as raised at lines
    383-395. *)
Record HTTPException : Type := mkHTTPException {
  exc_status_code : Z;
  exc_error : string;
  exc_retry_after : Z;
  exc_headers : gmap string string
}.

(** The [wrapper] of the [rate_limit] decorator, lines 356-398, around the
    endpoint [func], with the limiter of [request.app.state].  Raising the
    [HTTPException] is the left summand of the result. *)
Definition rate_limit {A : Type} (max_requests window_seconds : Z)
    (strategy : string) (func : Request -> prog A)
    (limiter : RateLimiter) (request : Request) (now : Q)
  : prog (HTTPException + A) :=
  let user_id : option string := None in
  key ← lift (get_rate_limit_key request strategy user_id);
  result ← check_rate_limit limiter key max_requests window_seconds now;
  if negb (allowed result) then
    Ret (inl (mkHTTPException 429 "Rate limit exceeded" (retry_after result)
                {[ "X-RateLimit-Limit" := py_str_int (limit result);
                   "X-RateLimit-Remaining" := "0";
                   "X-RateLimit-Reset" := py_str_int (reset result);
                   "Retry-After" := py_str_int (retry_after result) ]}))
  else
    r ← func request;
    Ret (inr r).

(** An endpoint under the decorator, as the middleware calls it:
    [render] is what the framework makes of the endpoint's answer or of
    the exception. *)
Definition decorated {A : Type} (max_requests window_seconds : Z)
    (strategy : string) (func : Request -> prog A)
    (render : HTTPException + A -> Response)
    (limiter : RateLimiter) (now : Q) (request : Request) : prog Response :=
  r ← rate_limit max_requests window_seconds strategy func limiter request now;
  Ret (render r).

(** * Properties *)

(** ** The command tree and the direct style agree *)

Ltac by_vm :=
  lazymatch goal with
  | |- ?a = ?b => vm_cast_no_check (@eq_refl _ b)
  end.

Ltac prog_simpl :=
  cbn [run try_except hgetall hset expire mbind prog_bind bind await lift
       nth tail isinstance_RedisConnectionError].

Lemma run_check_rate_limit self key max_requests window_seconds now faults s :
  run (check_rate_limit self key max_requests window_seconds now) faults s
  = check_direct self key max_requests window_seconds now faults s.
Proof.
  unfold check_rate_limit, check_body, check_direct, fault_at, finish, caught,
    except_RedisConnectionError.
  destruct (redis self) as [[]|]; [|reflexivity].
  destruct faults as [|[e0|] faults]; prog_simpl; [ | destruct e0; reflexivity | ].
  all: destruct (take_token _ _ _ _) as [e|tokens]; prog_simpl;
    [ destruct (isinstance_RedisConnectionError e); reflexivity | ].
  all: destruct (geb tokens (of_int 0));
    destruct (response _ _ _ _ _) as [e|d];
    try (destruct faults as [|[e1|] [|[e2|] faults]]; try destruct e1; try destruct e2);
    prog_simpl;
    try destruct (isinstance_RedisConnectionError e); reflexivity.
Qed.

(** ** Arithmetic of the model *)

Ltac raising_simpl := cbn [mbind raising_bind].

Lemma Qltb_lt a b : Qltb a b = true <-> (a < b)%Q.
Proof.
  unfold Qltb. rewrite Qlt_alt. destruct (a ?= b)%Q; split; congruence.
Qed.

Lemma Qltb_ge a b : Qltb a b = false <-> (b <= a)%Q.
Proof.
  unfold Qltb. rewrite Qle_alt, <- (Qcompare_antisym a b).
  destruct (a ?= b)%Q; cbn; split; intros H; try congruence; try discriminate.
Qed.

Lemma trunc_inject_Z z : trunc (inject_Z z) = z.
Proof. unfold trunc, inject_Z; cbn. apply Z.quot_1_r. Qed.

Lemma geb_zero q : geb (Fin q) (of_int 0) = true <-> (0 <= q)%Q.
Proof. cbn. apply Qle_bool_iff. Qed.

Lemma inject_Z_pred z : (inject_Z (z - 1) == inject_Z z - 1)%Q.
Proof. unfold Z.sub. rewrite inject_Z_plus. reflexivity. Qed.

(** What is left after [min] and the consumption of one token is finite
    and below the capacity whenever it is not negative. *)
Lemma consumed_range c x :
  geb (sub (py_min (Fin c) x) (of_int 1)) (of_int 0) = true ->
  exists q, sub (py_min (Fin c) x) (of_int 1) = Fin q
            /\ (0 <= q)%Q /\ (q <= c - 1)%Q.
Proof.
  unfold py_min.
  destruct x as [a| | |]; cbn [ltb].
  - destruct (Qltb a c) eqn:E; cbn [sub neg add of_int]; intros H;
      eexists; (split; [reflexivity|]); apply geb_zero in H.
    + apply Qltb_lt in E. change (inject_Z 1) with 1%Q in *. split; lra.
    + change (inject_Z 1) with 1%Q in *. split; lra.
  - cbn [sub neg add of_int]. intros H. eexists; split; [reflexivity|].
    apply geb_zero in H. change (inject_Z 1) with 1%Q in *. split; lra.
  - cbn. discriminate.
  - cbn [sub neg add of_int]. intros H. eexists; split; [reflexivity|].
    apply geb_zero in H. change (inject_Z 1) with 1%Q in *. split; lra.
Qed.

Lemma take_token_allowed_range max_requests window_seconds now (b : bucket) tokens :
  take_token max_requests window_seconds now b = inr tokens ->
  geb tokens (of_int 0) = true ->
  exists q, tokens = Fin q /\ (0 <= q)%Q /\ (q <= inject_Z max_requests - 1)%Q.
Proof.
  unfold take_token.
  destruct (is_empty b || negb (contains b "tokens")).
  - intros [= <-] H. exists (inject_Z (max_requests - 1)).
    apply geb_zero in H. pose proof (inject_Z_pred max_requests) as E.
    repeat split; [exact H | lra].
  - destruct (subscript b "tokens") as [?|ts]; [discriminate|]; raising_simpl.
    destruct (py_float ts) as [?|t]; [discriminate|]; raising_simpl.
    destruct (subscript b "last_refill") as [?|ls]; [discriminate|]; raising_simpl.
    destruct (py_float ls) as [?|l]; [discriminate|]; raising_simpl.
    unfold refill. destruct (truediv _ _) as [?|rate]; [discriminate|]; raising_simpl.
    intros [= <-]. apply consumed_range.
Qed.

(** ** The store commands *)

Lemma lookup_store_hset (s : store) k m :
  store_hset s k m !! k = Some (Entry (m ∪ store_hgetall s k) (s !! k ≫= ttl)).
Proof. unfold store_hset. apply lookup_insert_eq. Qed.

Lemma lookup_store_hset_ne (s : store) k k' m :
  k ≠ k' -> store_hset s k m !! k' = s !! k'.
Proof. intros H. unfold store_hset. by apply lookup_insert_ne. Qed.

Lemma lookup_store_expire (s : store) k n e :
  s !! k = Some e ->
  store_expire s k n !! k
  = if (n <=? 0)%Z then None else Some (Entry (fields e) (Some n)).
Proof.
  intros H. unfold store_expire. rewrite H.
  destruct (n <=? 0)%Z; [apply lookup_delete_eq | apply lookup_insert_eq].
Qed.

Lemma lookup_store_expire_ne (s : store) k k' n :
  k ≠ k' -> store_expire s k n !! k' = s !! k'.
Proof.
  intros H. unfold store_expire. destruct (s !! k); [|reflexivity].
  destruct (n <=? 0)%Z; [by apply lookup_delete_ne | by apply lookup_insert_ne].
Qed.

Lemma bucket_mapping_tokens t now :
  bucket_mapping t now !! "tokens" = Some (Num t).
Proof. reflexivity. Qed.

Lemma bucket_mapping_last_refill t now :
  bucket_mapping t now !! "last_refill" = Some (Num (Fin now)).
Proof. reflexivity. Qed.

Lemma written_tokens (old : bucket) t now :
  (bucket_mapping t now ∪ old) !! "tokens" = Some (Num t).
Proof. apply lookup_union_Some_l, bucket_mapping_tokens. Qed.

Lemma written_last_refill (old : bucket) t now :
  (bucket_mapping t now ∪ old) !! "last_refill" = Some (Num (Fin now)).
Proof. apply lookup_union_Some_l, bucket_mapping_last_refill. Qed.

(** ** What a call can do to the store *)

(** A call leaves the store alone, or it has written the mapping of an
    allowed request, followed or not by EXPIRE. *)
Lemma check_direct_store self key max_requests window_seconds now faults s :
  let k := "rate_limit:" +:+ key in
  let s' := snd (check_direct self key max_requests window_seconds now faults s) in
  s' = s
  \/ exists tokens,
       take_token max_requests window_seconds now (store_hgetall s k) = inr tokens
       /\ geb tokens (of_int 0) = true
       /\ (s' = store_hset s k (bucket_mapping tokens now)
           \/ s' = store_expire (store_hset s k (bucket_mapping tokens now)) k
                     (window_seconds * 2)).
Proof.
  cbv zeta. unfold check_direct.
  destruct (redis self); [|by left].
  destruct (fault_at 0 faults); [by left|].
  destruct (take_token _ _ _ _) as [e|tokens] eqn:Etake; [by left|].
  destruct (geb tokens (of_int 0)) eqn:Egeb; [|by left].
  destruct (fault_at 1 faults); [by left|].
  right. exists tokens. repeat split; try done.
  destruct (fault_at 2 faults); cbn [snd]; auto.
Qed.

Lemma check_direct_frame self key max_requests window_seconds now faults s k' :
  "rate_limit:" +:+ key ≠ k' ->
  snd (check_direct self key max_requests window_seconds now faults s) !! k'
  = s !! k'.
Proof.
  intros Hne.
  destruct (check_direct_store self key max_requests window_seconds now faults s)
    as [->|(tokens & _ & _ & [-> | ->])]; [done|..].
  - by apply lookup_store_hset_ne.
  - rewrite lookup_store_expire_ne by done. by apply lookup_store_hset_ne.
Qed.



(** ** Denied requests *)

Lemma fault_at_Forall n faults e :
  fault_at n faults = Some e ->
  Forall (fun f => f ≠ Some e) faults -> False.
Proof.
  unfold fault_at. intros Hn HF.
  destruct (nth_in_or_default n faults None) as [Hin|Hd].
  - rewrite Hn in Hin. rewrite List.Forall_forall in HF. by apply (HF _ Hin).
  - congruence.
Qed.

Lemma caught_returned self max_requests window_seconds now e d :
  caught self max_requests window_seconds now e = Returned d ->
  e = RedisConnectionError /\ d = degraded self max_requests window_seconds now.
Proof.
  unfold caught. destruct e as [[]| | | | |]; cbn; intros [= <-]; done.
Qed.

Lemma response_allowed max_requests window_seconds now tokens a d :
  response max_requests window_seconds now tokens a = inr d -> allowed d = a.
Proof.
  unfold response. destruct (py_int tokens); raising_simpl; [discriminate|].
  by intros [= <-].
Qed.

Lemma response_not_connection_error max_requests window_seconds now tokens a e :
  response max_requests window_seconds now tokens a = inl e ->
  isinstance_RedisConnectionError e = false.
Proof.
  unfold response. destruct tokens; cbn; intros [= <-]; reflexivity.
Qed.

Lemma take_token_not_connection_error max_requests window_seconds now (b : bucket) e :
  take_token max_requests window_seconds now b = inl e ->
  isinstance_RedisConnectionError e = false.
Proof.
  unfold take_token, refill, subscript, truediv.
  destruct (_ || _); [discriminate|].
  destruct (b !! "tokens") as [[]|]; cbn;
    try (intros [= <-]; reflexivity).
  destruct (b !! "last_refill") as [[]|]; cbn;
    try (intros [= <-]; reflexivity).
  destruct (window_seconds =? 0)%Z; cbn; [intros [= <-]; reflexivity|discriminate].
Qed.

Lemma finish_returned self max_requests window_seconds now tokens a d :
  finish self max_requests window_seconds now
    (response max_requests window_seconds now tokens a) = Returned d ->
  allowed d = a.
Proof.
  unfold finish.
  destruct (response _ _ _ _ _) as [e|d'] eqn:E.
  - apply response_not_connection_error in E. unfold caught. rewrite E. discriminate.
  - intros [= <-]. by eapply response_allowed.
Qed.

(** A call that returns [allowed = False] has left the store exactly as
    it found it, whichever commands fail, as long as the decision is not
    the fail-closed fallback, that is, as long as [fail_open] is set or no
    command raised a connection error. *)
Lemma denial_outside_fallback_writes_nothing self key max_requests
    window_seconds now faults s d s' :
  run (check_rate_limit self key max_requests window_seconds now) faults s
  = (Returned d, s') ->
  allowed d = false ->
  fail_open self = true \/ Forall (fun f => f ≠ Some ConnectionError) faults ->
  s' = s.
Proof.
  rewrite run_check_rate_limit. unfold check_direct.
  intros Hrun Hden Hmode.
  assert (Hdeg : forall n e,
             fault_at n faults = Some e ->
             caught self max_requests window_seconds now (RedisError e)
             = Returned d -> False).
  { intros n e Hn Hc. apply caught_returned in Hc as [[= ->] ->].
    destruct Hmode as [Hfo|HF].
    - unfold degraded in Hden. rewrite Hfo in Hden. discriminate.
    - eapply fault_at_Forall; eassumption. }
  destruct (redis self); [|by injection Hrun as _ <-].
  destruct (fault_at 0 faults) eqn:F0; [by injection Hrun as _ <-|].
  destruct (take_token _ _ _ _) as [e|tokens]; [by injection Hrun as _ <-|].
  destruct (geb tokens (of_int 0)) eqn:G; [|by injection Hrun as _ <-].
  destruct (fault_at 1 faults) eqn:F1; [by injection Hrun as _ <-|].
  destruct (fault_at 2 faults) eqn:F2; injection Hrun as Hd <-.
  - exfalso. eapply Hdeg; eassumption.
  - apply finish_returned in Hd. congruence.
Qed.

(** C2, as the code has it: a call that returns [allowed = False] has
    written nothing, whichever commands of the call fail, unless that
    answer is the fail-closed fallback of the [except] branch.  With
    [fail_open] set, or with no connection error raised during the call,
    the whole store, and with it the record of the key, its [tokens] and
    [last_refill] fields and its time to live, is what it was before the
    call. *)
Theorem denied_check_writes_nothing self key max_requests window_seconds now
    faults s d s' :
  run (check_rate_limit self key max_requests window_seconds now) faults s
  = (Returned d, s') ->
  allowed d = false ->
  fail_open self = true \/ Forall (fun f => f ≠ Some ConnectionError) faults ->
  s' = s.
Proof.
  intros Hrun Hden Hmode.
  exact (denial_outside_fallback_writes_nothing _ _ _ _ _ _ _ _ _ Hrun Hden Hmode).
Qed.

Lemma denied_check_writes_nothing_witness :
  let self := connect (init "redis://localhost:6379/0" false) in
  let s := snd (sequential 5 self "ip:203.0.113.45:/api/login" 5 60 (100 # 1) ∅) in
  snd (run (check_rate_limit self "ip:203.0.113.45:/api/login" 5 60 (100 # 1))
         [None; Some TimeoutError] s) = s.
Proof.
  cbv zeta.
  eapply (denied_check_writes_nothing
            (connect (init "redis://localhost:6379/0" false))
            "ip:203.0.113.45:/api/login" 5 60 (100 # 1)
            [None; Some TimeoutError]
            _ (mkDecision false 5 0 160 60)).
  - by_vm.
  - reflexivity.
  - right. repeat constructor; discriminate.
Defined.

(** C2, as the specification words it, fails: on a fail-closed limiter
    the first request of a key finds no record, HSET writes one with 4
    tokens, EXPIRE raises a connection error, and the [except] branch
    answers [allowed = False].  The denied call has created the record,
    written its [tokens] and [last_refill] fields, and left it without a
    time to live. *)
Lemma denied_check_fail_closed_counterexample :
  let self := connect (init "redis://localhost:6379/0" false) in
  let r := run (check_rate_limit self "k" 5 60 (100 # 1))
             [None; None; Some ConnectionError] ∅ in
  store_hgetall ∅ "rate_limit:k" = ∅
  /\ fst r = Returned (mkDecision false 5 0 160 60)
  /\ snd r ≠ ∅
  /\ store_hgetall (snd r) "rate_limit:k" !! "tokens" = Some (Num (of_int 4))
  /\ store_hgetall (snd r) "rate_limit:k" !! "last_refill" = Some (Num (Fin (100 # 1)))
  /\ store_ttl (snd r) "rate_limit:k" = None.
Proof.
  cbv zeta. split; [reflexivity|]. split; [by_vm|]. split; [|repeat split; by_vm].
  intros E.
  assert (H : store_hgetall
                (snd (run (check_rate_limit
                             (connect (init "redis://localhost:6379/0" false))
                             "k" 5 60 (100 # 1))
                        [None; None; Some ConnectionError] ∅))
                "rate_limit:k" !! "tokens" = Some (Num (of_int 4))) by by_vm.
  rewrite E in H. discriminate H.
Qed.

(** Repeated denials leave the stored tokens where they are. *)
Lemma repeated_denials_keep_the_record n self key max_requests window_seconds
    now s :
  Forall (fun o => allowed_of o = Some false)
    (fst (sequential n self key max_requests window_seconds now s)) ->
  snd (sequential n self key max_requests window_seconds now s) = s.
Proof.
  revert s. induction n as [|n IH]; intros s; [reflexivity|].
  cbn [sequential].
  destruct (check self key max_requests window_seconds now s) as [o s1] eqn:E1.
  specialize (IH s1).
  destruct (sequential n self key max_requests window_seconds now s1) as [os s2].
  cbn [fst snd] in *. intros HF. apply Forall_cons in HF as [Ho Hos].
  destruct o as [d|]; [|discriminate]. injection Ho as Hd.
  assert (s1 = s) as ->.
  { apply (denial_outside_fallback_writes_nothing _ _ _ _ _ [] _ _ _ E1 Hd).
    right. constructor. }
  by apply IH.
Qed.

(** ** Refill *)

Lemma truediv_nonzero a b :
  b ≠ 0%Z -> truediv a b = inr (Fin (inject_Z a / inject_Z b)).
Proof. intros H. unfold truediv. by destruct (Z.eqb_spec b 0). Qed.

Lemma refill_rate_positive a b :
  (0 < a)%Z -> (0 < b)%Z -> (0 < inject_Z a / inject_Z b)%Q.
Proof.
  intros Ha Hb. unfold Qdiv. apply Qmult_lt_0_compat.
  - unfold Qlt; cbn; lia.
  - apply Qinv_lt_0_compat. unfold Qlt; cbn; lia.
Qed.

Lemma py_min_finite c x :
  py_min (Fin c) (Fin x) = Fin (if Qltb x c then x else c).
Proof. unfold py_min; cbn. by destruct (Qltb x c). Qed.

(** C3, as the code has it: the elapsed time is [now - last_refill] with
    no clamp.  With a stored [last_refill] later than [now] it is negative,
    and the refill yields [min(max_requests, tokens + elapsed * rate)]
    computed with that negative value, which is never above the stored
    [tokens] nor above the capacity: a timestamp in the future grants
    nothing, and what [elapsed * rate] takes away is a penalty on top of
    the token the request takes.  (The capacity is below 2^1023 and the
    window below 2^63, so that the rate is a positive float.) *)
Theorem future_last_refill_penalises max_requests window_seconds now t l :
  (0 < max_requests < 2 ^ 1023)%Z -> (0 < window_seconds < 2 ^ 63)%Z ->
  (now < l)%Q ->
  elapsed now (Fin l) = Fin (now - l)
  /\ (now - l < 0)%Q
  /\ exists x,
       refill max_requests window_seconds now (Fin t) (Fin l) = inr x
       /\ x = py_min (of_int max_requests)
                (add (Fin t)
                   (mul (Fin (now - l))
                      (Fin (inject_Z max_requests / inject_Z window_seconds))))
       /\ geb (Fin t) x = true
       /\ geb (of_int max_requests) x = true.
Proof.
  intros [Hc _] [Hw _] Hl.
  split; [reflexivity|]. split; [lra|].
  unfold refill. rewrite truediv_nonzero by lia. raising_simpl.
  eexists. split; [reflexivity|].
  unfold elapsed, of_int. cbn [sub neg add mul]. split; [reflexivity|].
  rewrite py_min_finite.
  pose proof (refill_rate_positive _ _ Hc Hw) as Hr.
  set (r := (inject_Z max_requests / inject_Z window_seconds)%Q) in *.
  assert (Hneg : ((now + - l) * r < 0)%Q).
  { assert (H : (0 < (l - now) * r)%Q) by (apply Qmult_lt_0_compat; [lra|assumption]).
    assert (E : ((now + - l) * r == - ((l - now) * r))%Q) by ring.
    rewrite E. lra. }
  cbn [geb].
  destruct (Qltb (t + (now + - l) * r) (inject_Z max_requests)) eqn:E.
  - apply Qltb_lt in E. split; apply Qle_bool_iff; lra.
  - apply Qltb_ge in E. split; apply Qle_bool_iff; lra.
Qed.

Lemma future_last_refill_penalises_witness :
  exists x, refill 5 60 (100 # 1) (Fin (3 # 1)) (Fin (160 # 1)) = inr x
            /\ geb (Fin (3 # 1)) x = true.
Proof.
  destruct (future_last_refill_penalises 5 60 (100 # 1) (3 # 1) (160 # 1))
    as (_ & _ & x & Hx & _ & Hle & _).
  - split; [lia|reflexivity].
  - split; [lia|reflexivity].
  - reflexivity.
  - exists x. split; assumption.
Defined.

(** C3, as the specification words it, fails: with 3 tokens stored and a
    [last_refill] 60 seconds ahead of the clock the elapsed time is -60,
    not 0, the refill leaves -2 tokens, not 3, and the request is denied
    although 3 tokens were in the bucket. *)
Lemma future_last_refill_counterexample :
  let self := connect (init "redis://localhost:6379/0" true) in
  let stored : store :=
    {[ "rate_limit:k" := Entry (bucket_mapping (of_int 3) (160 # 1)) (Some 120%Z) ]} in
  (exists e, elapsed (100 # 1) (of_int 160) = Fin e /\ (e == -60 # 1)%Q
             /\ ~ (e == 0)%Q)
  /\ (exists q, refill 5 60 (100 # 1) (of_int 3) (of_int 160) = inr (Fin q)
                /\ (q == -2 # 1)%Q /\ ~ (q == 3 # 1)%Q)
  /\ allowed_of (fst (check self "k" 5 60 (100 # 1) stored)) = Some false
  /\ snd (check self "k" 5 60 (100 # 1) stored) = stored.
Proof.
  cbv zeta. split; [|split; [|split]].
  - eexists. split; [reflexivity|]. split; [reflexivity|]. vm_compute. discriminate.
  - eexists. split; [vm_compute; reflexivity|]. split; [reflexivity|].
    vm_compute. discriminate.
  - vm_compute. reflexivity.
  - vm_compute. reflexivity.
Qed.

(** ** A call on a reachable store *)

Lemma fault_at_nil n : fault_at n [] = None.
Proof. unfold fault_at. by destruct n. Qed.

(** With a connected client and no fault the call is decided by
    [take_token] alone. *)
Lemma check_connected self key max_requests window_seconds now s :
  redis self = Some RedisClient ->
  check self key max_requests window_seconds now s
  = let k := "rate_limit:" +:+ key in
    match take_token max_requests window_seconds now (store_hgetall s k) with
    | inl e => (caught self max_requests window_seconds now e, s)
    | inr tokens =>
        (finish self max_requests window_seconds now
           (response max_requests window_seconds now tokens (geb tokens (of_int 0))),
         if geb tokens (of_int 0)
         then store_expire (store_hset s k (bucket_mapping tokens now)) k
                (window_seconds * 2)
         else s)
    end.
Proof.
  intros Hc. unfold check. rewrite run_check_rate_limit. unfold check_direct.
  rewrite Hc, !fault_at_nil. cbv zeta.
  destruct (take_token _ _ _ _); [reflexivity|].
  by destruct (geb _ _).
Qed.

Lemma store_hgetall_absent (s : store) k : s !! k = None -> store_hgetall s k = ∅.
Proof. intros H. unfold store_hgetall. by rewrite H. Qed.

Lemma take_token_absent max_requests window_seconds now :
  take_token max_requests window_seconds now ∅ = inr (of_int (max_requests - 1)).
Proof. reflexivity. Qed.

Lemma response_finite max_requests window_seconds now q a :
  response max_requests window_seconds now (Fin q) a
  = inr (mkDecision a max_requests (Z.max 0 (trunc q))
           (trunc (now + inject_Z window_seconds))
           (if negb a then window_seconds else 0%Z)).
Proof. reflexivity. Qed.

Lemma geb_of_int z : geb (of_int z) (of_int 0) = (0 <=? z)%Z.
Proof.
  unfold of_int; cbn [geb]. unfold Qle_bool; cbn. by rewrite !Z.mul_1_r.
Qed.

(** EXPIRE with a time to live that is not positive removes what HSET has
    just created. *)
Lemma hset_expire_absent (s : store) k m n :
  s !! k = None -> (n <= 0)%Z -> store_expire (store_hset s k m) k n = s.
Proof.
  intros Hk Hn. unfold store_expire. rewrite lookup_store_hset.
  destruct (Z.leb_spec n 0); [|lia].
  unfold store_hset. rewrite delete_insert_eq. by apply delete_id.
Qed.

(** C7, as the code has it: neither argument is validated and no
    configuration error exists.  On an absent key and a reachable store, a
    capacity that is not positive is answered with a denial (nothing is
    written), and a positive capacity with a window that is not positive
    is answered with [allowed = True] while the record is removed at once
    by the EXPIRE that follows its creation, so that the key stays absent. *)
Theorem nonpositive_configuration_is_answered self key max_requests
    window_seconds now s :
  redis self = Some RedisClient ->
  s !! ("rate_limit:" +:+ key) = None ->
  ((max_requests <= 0)%Z ->
   check self key max_requests window_seconds now s
   = (Returned (mkDecision false max_requests 0
                  (trunc (now + inject_Z window_seconds)) window_seconds), s))
  /\ ((0 < max_requests)%Z -> (window_seconds <= 0)%Z ->
      check self key max_requests window_seconds now s
      = (Returned (mkDecision true max_requests (max_requests - 1)
                     (trunc (now + inject_Z window_seconds)) 0), s)).
Proof.
  intros Hc Hk.
  rewrite (check_connected _ _ _ _ _ _ Hc). cbv zeta.
  rewrite (store_hgetall_absent _ _ Hk), take_token_absent, geb_of_int.
  unfold of_int. rewrite response_finite, trunc_inject_Z. cbn [finish].
  split.
  - intros H. destruct (Z.leb_spec 0 (max_requests - 1)); [lia|].
    cbn [negb]. do 3 f_equal. lia.
  - intros H Hw. destruct (Z.leb_spec 0 (max_requests - 1)); [|lia].
    cbn [negb]. rewrite hset_expire_absent by (done || lia).
    do 3 f_equal. lia.
Qed.

Lemma nonpositive_configuration_is_answered_witness :
  let self := connect (init "redis://localhost:6379/0" true) in
  check self "k" 0 60 (100 # 1) ∅
  = (Returned (mkDecision false 0 0 160 60), ∅)
  /\ check self "k" 5 0 (100 # 1) ∅
     = (Returned (mkDecision true 5 4 100 0), ∅).
Proof.
  cbv zeta. split.
  - refine (proj1 (nonpositive_configuration_is_answered
                     (connect (init "redis://localhost:6379/0" true))
                     "k" 0 60 (100 # 1) ∅ _ _) _).
    + reflexivity.
    + vm_compute. reflexivity.
    + lia.
  - refine (proj2 (nonpositive_configuration_is_answered
                     (connect (init "redis://localhost:6379/0" true))
                     "k" 5 0 (100 # 1) ∅ _ _) _ _).
    + reflexivity.
    + vm_compute. reflexivity.
    + lia.
    + lia.
Defined.

(** C7, as the specification words it, fails: a capacity of 0, and a
    capacity of -3 with a window of -60, are each answered with an
    ordinary denial, and a window of 0 with [allowed = True]; nothing is
    raised. *)
Lemma nonpositive_configuration_counterexample :
  let self := connect (init "redis://localhost:6379/0" true) in
  fst (check self "k" 0 60 (100 # 1) ∅)
  = Returned (mkDecision false 0 0 160 60)
  /\ fst (check self "k" (-3) (-60) (100 # 1) ∅)
     = Returned (mkDecision false (-3) 0 40 (-60))
  /\ fst (check self "k" 5 0 (100 # 1) ∅)
     = Returned (mkDecision true 5 4 100 0).
Proof. cbv zeta. repeat split; vm_compute; reflexivity. Qed.

(** ** Time to live *)

Lemma store_ttl_elapse (s : store) k dt :
  store_ttl (store_elapse dt s) k
  = match store_ttl s k with
    | Some t => if (t <=? dt)%Z then None else Some (t - dt)%Z
    | None => None
    end.
Proof.
  unfold store_ttl, store_elapse. rewrite lookup_omap.
  destruct (s !! k) as [[b [t|]]|]; cbn; [|done..].
  by destruct (t <=? dt)%Z.
Qed.

(** C8, as the code has it: a call that returns [allowed = True] leaves
    the record with a time to live of exactly twice the window, whichever
    commands of the call fail, unless that answer is the fail-open
    fallback of the [except] branch: with [fail_open] unset, or with no
    connection error raised during the call, and for a positive window
    whose double the store accepts as a number of seconds (a signed 64-bit
    integer).  As the server counts it down, the time to live read at any
    later moment lies between 0 and twice the window. *)
Theorem allowed_check_refreshes_ttl self key max_requests window_seconds now
    faults s d s' :
  (0 < window_seconds)%Z ->
  (window_seconds * 2 < 2 ^ 63)%Z ->
  run (check_rate_limit self key max_requests window_seconds now) faults s
  = (Returned d, s') ->
  allowed d = true ->
  fail_open self = false \/ Forall (fun f => f ≠ Some ConnectionError) faults ->
  store_ttl s' ("rate_limit:" +:+ key) = Some (2 * window_seconds)%Z
  /\ forall dt t, (0 <= dt)%Z ->
       store_ttl (store_elapse dt s') ("rate_limit:" +:+ key) = Some t ->
       (0 <= t <= 2 * window_seconds)%Z.
Proof.
  intros Hw _ Hrun Hal Hmode.
  assert (Hdeg : forall e,
             caught self max_requests window_seconds now (RedisError e)
             = Returned d ->
             (exists n, fault_at n faults = Some e) -> False).
  { intros e Hc [n Hn]. apply caught_returned in Hc as [[= ->] ->].
    destruct Hmode as [Hfo|HF].
    - unfold degraded in Hal. rewrite Hfo in Hal. discriminate.
    - eapply fault_at_Forall; eassumption. }
  assert (Httl : store_ttl s' ("rate_limit:" +:+ key) = Some (2 * window_seconds)%Z).
  { rewrite run_check_rate_limit in Hrun. unfold check_direct in Hrun.
    destruct (redis self); [|discriminate].
    destruct (fault_at 0 faults) eqn:F0.
    { injection Hrun as Hd _. exfalso. eapply Hdeg; eauto. }
    destruct (take_token _ _ _ _) as [e|tokens] eqn:Etake.
    { apply take_token_not_connection_error in Etake.
      unfold caught in Hrun. rewrite Etake in Hrun. discriminate. }
    destruct (geb tokens (of_int 0)) eqn:G.
    - destruct (fault_at 1 faults) eqn:F1.
      { injection Hrun as Hd _. exfalso. eapply Hdeg; eauto. }
      destruct (fault_at 2 faults) eqn:F2; injection Hrun as Hd <-.
      { exfalso. eapply Hdeg; eauto. }
      unfold store_ttl. erewrite lookup_store_expire by apply lookup_store_hset.
      destruct (Z.leb_spec (window_seconds * 2) 0); [lia|].
      cbn. f_equal. lia.
    - injection Hrun as Hd <-. apply finish_returned in Hd. congruence. }
  split; [exact Httl|].
  intros dt t Hdt. rewrite store_ttl_elapse, Httl.
  destruct (Z.leb_spec (2 * window_seconds) dt); [discriminate|].
  intros [= <-]. lia.
Qed.

Lemma allowed_check_refreshes_ttl_witness :
  let self := connect (init "redis://localhost:6379/0" true) in
  store_ttl (snd (run (check_rate_limit self "ttl_test" 5 10 (100 # 1)) [] ∅))
    "rate_limit:ttl_test"
  = Some 20%Z.
Proof.
  cbv zeta.
  refine (proj1 (allowed_check_refreshes_ttl
                   (connect (init "redis://localhost:6379/0" true))
                   "ttl_test" 5 10 (100 # 1) [] ∅
                   (mkDecision true 5 4 110 0) _ _ _ _ _ _)).
  - lia.
  - lia.
  - by_vm.
  - reflexivity.
  - right. constructor.
Defined.

(** C8, as the specification words it, fails: on a fail-open limiter the
    first request of a key finds no record, HSET writes one with 4 tokens,
    EXPIRE raises a connection error, and the [except] branch answers
    [allowed = True].  The allowed call has left the record without any
    time to live, not with one of twice the window, and it stays so
    however long the server waits. *)
Lemma allowed_check_fail_open_counterexample :
  let self := connect (init "redis://localhost:6379/0" true) in
  let r := run (check_rate_limit self "k" 5 10 (100 # 1))
             [None; None; Some ConnectionError] ∅ in
  fst r = Returned (mkDecision true 5 5 110 0)
  /\ store_hgetall (snd r) "rate_limit:k" !! "tokens" = Some (Num (of_int 4))
  /\ store_ttl (snd r) "rate_limit:k" = None
  /\ store_ttl (snd r) "rate_limit:k" ≠ Some 20%Z
  /\ store_hgetall (store_elapse 1000 (snd r)) "rate_limit:k" !! "tokens"
     = Some (Num (of_int 4)).
Proof.
  cbv zeta.
  assert (H : store_ttl
                (snd (run (check_rate_limit
                             (connect (init "redis://localhost:6379/0" true))
                             "k" 5 10 (100 # 1))
                        [None; None; Some ConnectionError] ∅))
                "rate_limit:k" = None) by by_vm.
  split; [by_vm|]. split; [by_vm|]. split; [exact H|]. split; [|by_vm].
  rewrite H. discriminate.
Qed.

(** ** Sequential calls at one instant *)

Lemma is_empty_lookup (b : bucket) name f : b !! name = Some f -> is_empty b = false.
Proof.
  intros H. unfold is_empty. apply Nat.eqb_neq. intros E.
  apply map_size_empty_iff in E. subst b. by rewrite lookup_empty in H.
Qed.

Lemma contains_lookup (b : bucket) name f : b !! name = Some f -> contains b name = true.
Proof. intros H. unfold contains. by rewrite H. Qed.

(** The tokens left by a request on a bucket of finite numbers. *)
Lemma take_token_finite max_requests window_seconds now (b : bucket) t l :
  b !! "tokens" = Some (Num (Fin t)) ->
  b !! "last_refill" = Some (Num (Fin l)) ->
  window_seconds ≠ 0%Z ->
  take_token max_requests window_seconds now b
  = inr (Fin ((let x := t + (now - l) * (inject_Z max_requests / inject_Z window_seconds)
               in if Qltb x (inject_Z max_requests) then x else inject_Z max_requests)
              - 1)%Q).
Proof.
  intros Ht Hl Hw. unfold take_token.
  rewrite (is_empty_lookup _ _ _ Ht), (contains_lookup _ _ _ Ht). cbn [orb negb].
  unfold subscript. rewrite Ht, Hl. raising_simpl. cbn [py_float]. raising_simpl.
  unfold refill. rewrite truediv_nonzero by done. raising_simpl.
  unfold elapsed, of_int. cbn [sub neg add mul]. by rewrite py_min_finite.
Qed.

(** No time has passed and the bucket is not above capacity: exactly one
    token goes. *)
Lemma take_token_same_instant max_requests window_seconds now (b : bucket) t l n :
  b !! "tokens" = Some (Num (Fin t)) -> (t == inject_Z n)%Q ->
  b !! "last_refill" = Some (Num (Fin l)) -> (l == now)%Q ->
  (0 < window_seconds)%Z -> (n <= max_requests)%Z ->
  exists q, take_token max_requests window_seconds now b = inr (Fin q)
            /\ (q == inject_Z (n - 1))%Q.
Proof.
  intros Ht Et Hl El Hw Hn.
  rewrite (take_token_finite _ _ _ _ _ _ Ht Hl) by lia.
  eexists. split; [reflexivity|]. cbv zeta.
  assert (E0 : ((now - l) * (inject_Z max_requests / inject_Z window_seconds) == 0)%Q).
  { assert (E : (now - l == 0)%Q) by lra. rewrite E. apply Qmult_0_l. }
  assert (Hle : (inject_Z n <= inject_Z max_requests)%Q) by (by rewrite <- Zle_Qle).
  rewrite inject_Z_pred.
  destruct (Qltb _ _) eqn:E.
  - lra.
  - apply Qltb_ge in E. lra.
Qed.

Lemma trunc_integer q z : (q == inject_Z z)%Q -> trunc q = z.
Proof.
  unfold trunc, Qeq, inject_Z; cbn. intros H. rewrite Z.mul_1_r in H.
  rewrite H. apply Z.quot_mul. lia.
Qed.

Lemma holds_after_write (s : store) key q n now w :
  (q == inject_Z n)%Q -> (0 < w)%Z ->
  holds (store_expire
           (store_hset s ("rate_limit:" +:+ key) (bucket_mapping (Fin q) now))
           ("rate_limit:" +:+ key) (w * 2))
    key n now.
Proof.
  intros Hq Hw. unfold holds.
  erewrite lookup_store_expire by apply lookup_store_hset.
  destruct (Z.leb_spec (w * 2) 0); [lia|].
  eexists _, q, now. split; [reflexivity|]. cbn [fields].
  rewrite written_tokens, written_last_refill. by repeat split.
Qed.

(** The first request on an absent key. *)
Lemma check_first self key max_requests window_seconds now s :
  redis self = Some RedisClient -> (0 < window_seconds)%Z -> (0 < max_requests)%Z ->
  s !! ("rate_limit:" +:+ key) = None ->
  exists d s', check self key max_requests window_seconds now s = (Returned d, s')
               /\ allowed d = true
               /\ holds s' key (max_requests - 1) now.
Proof.
  intros Hc Hw Hm Hk. rewrite (check_connected _ _ _ _ _ _ Hc). cbv zeta.
  rewrite (store_hgetall_absent _ _ Hk), take_token_absent, geb_of_int.
  destruct (Z.leb_spec 0 (max_requests - 1)); [|lia].
  unfold of_int. rewrite response_finite. cbn [finish].
  eexists _, _. split; [reflexivity|]. split; [reflexivity|].
  by apply holds_after_write.
Qed.

(** A request on a bucket that still holds a token. *)
Lemma check_takes_one self key max_requests window_seconds now s n :
  redis self = Some RedisClient -> (0 < window_seconds)%Z ->
  (1 <= n <= max_requests)%Z -> holds s key n now ->
  exists d s', check self key max_requests window_seconds now s = (Returned d, s')
               /\ allowed d = true /\ remaining d = (n - 1)%Z
               /\ holds s' key (n - 1) now.
Proof.
  intros Hc Hw Hn (e & t & l & He & Ht & Et & Hl & El).
  rewrite (check_connected _ _ _ _ _ _ Hc). cbv zeta.
  unfold store_hgetall at 1. rewrite He.
  destruct (take_token_same_instant max_requests window_seconds now (fields e)
              t l n Ht Et Hl El Hw) as (q & -> & Eq); [lia|].
  assert (G : geb (Fin q) (of_int 0) = true).
  { apply geb_zero. rewrite Eq. change 0%Q with (inject_Z 0).
    rewrite <- Zle_Qle. lia. }
  rewrite G, response_finite. cbn [finish].
  eexists _, _. split; [reflexivity|]. split; [reflexivity|]. split.
  - cbn [remaining]. rewrite (trunc_integer _ _ Eq). lia.
  - by apply holds_after_write.
Qed.

(** A request on a bucket without tokens. *)
Lemma check_empty_bucket self key max_requests window_seconds now s :
  redis self = Some RedisClient -> (0 < window_seconds)%Z ->
  (0 <= max_requests)%Z -> holds s key 0 now ->
  exists d, check self key max_requests window_seconds now s = (Returned d, s)
            /\ allowed d = false /\ remaining d = 0%Z
            /\ retry_after d = window_seconds.
Proof.
  intros Hc Hw Hm (e & t & l & He & Ht & Et & Hl & El).
  rewrite (check_connected _ _ _ _ _ _ Hc). cbv zeta.
  unfold store_hgetall. rewrite He.
  destruct (take_token_same_instant max_requests window_seconds now (fields e)
              t l 0 Ht Et Hl El Hw) as (q & -> & Eq); [lia|].
  assert (G : geb (Fin q) (of_int 0) = false).
  { destruct (geb (Fin q) (of_int 0)) eqn:G; [|done].
    apply geb_zero in G. rewrite Eq in G. exfalso. revert G.
    change 0%Q with (inject_Z 0). rewrite <- Zle_Qle. lia. }
  rewrite G, response_finite. cbn [finish].
  eexists. split; [reflexivity|]. split; [reflexivity|]. split; [|reflexivity].
  cbn [remaining]. rewrite (trunc_integer _ _ Eq). lia.
Qed.

Lemma sequential_S n self key max_requests window_seconds now s o s1 :
  check self key max_requests window_seconds now s = (o, s1) ->
  fst (sequential (S n) self key max_requests window_seconds now s)
  = o :: fst (sequential n self key max_requests window_seconds now s1).
Proof.
  intros H. cbn [sequential]. rewrite H.
  by destruct (sequential n self key max_requests window_seconds now s1).
Qed.

(** A bucket of [n] tokens serves [n] requests and refuses the next. *)
Lemma drain self key max_requests window_seconds now n :
  redis self = Some RedisClient -> (0 < window_seconds)%Z ->
  forall s, (Z.of_nat n <= max_requests)%Z -> holds s key (Z.of_nat n) now ->
  allowed_of <$> fst (sequential (S n) self key max_requests window_seconds now s)
  = (replicate n (Some true) ++ [Some false])%list.
Proof.
  intros Hc Hw. induction n as [|n IH]; intros s Hn Hs.
  - destruct (check_empty_bucket self key max_requests window_seconds now s)
      as (d & Hrun & Hd & _); [done..|lia|done|].
    rewrite (sequential_S _ _ _ _ _ _ _ _ _ Hrun). cbn. by rewrite Hd.
  - destruct (check_takes_one self key max_requests window_seconds now s
                (Z.of_nat (S n))) as (d & s1 & Hrun & Hd & _ & Hs1);
      [done..|lia|done|].
    rewrite (sequential_S _ _ _ _ _ _ _ _ _ Hrun).
    replace (Z.of_nat (S n) - 1)%Z with (Z.of_nat n) in Hs1 by lia.
    rewrite fmap_cons, IH; [|lia|done]. cbn. by rewrite Hd.
Qed.

(** For any capacity: from an absent key and with the clock standing
    still, exactly [max_requests] requests pass. *)
Lemma exact_boundary self key max_requests window_seconds now s :
  redis self = Some RedisClient -> (0 < window_seconds)%Z -> (0 < max_requests)%Z ->
  s !! ("rate_limit:" +:+ key) = None ->
  allowed_of <$> fst (sequential (S (Z.to_nat max_requests)) self key
                        max_requests window_seconds now s)
  = (replicate (Z.to_nat max_requests) (Some true) ++ [Some false])%list.
Proof.
  intros Hc Hw Hm Hk.
  destruct (check_first self key max_requests window_seconds now s)
    as (d & s1 & Hrun & Hd & Hs1); [done..|].
  destruct (Z.to_nat max_requests) as [|n] eqn:En; [lia|].
  rewrite (sequential_S _ _ _ _ _ _ _ _ _ Hrun), fmap_cons.
  replace (max_requests - 1)%Z with (Z.of_nat n) in Hs1 by lia.
  rewrite (drain self key max_requests window_seconds now n Hc Hw s1); [|lia|done].
  cbn. by rewrite Hd.
Qed.

(** C9: with a capacity of 5 and any positive window, from an absent key
    and with no time passing between the calls, the first five calls
    return [allowed = True] and the sixth returns [allowed = False]. *)
Theorem boundary_five_then_denied self key window_seconds now s :
  redis self = Some RedisClient -> (0 < window_seconds)%Z ->
  s !! ("rate_limit:" +:+ key) = None ->
  allowed_of <$> fst (sequential 6 self key 5 window_seconds now s)
  = [Some true; Some true; Some true; Some true; Some true; Some false].
Proof.
  intros Hc Hw Hk.
  apply (exact_boundary self key 5 window_seconds now s Hc Hw); [lia|done].
Qed.

Lemma boundary_five_then_denied_witness :
  allowed_of <$> fst (sequential 6 (connect (init "redis://localhost:6379/15" true))
                        "boundary_test" 5 60 (1700000000 # 1) ∅)
  = [Some true; Some true; Some true; Some true; Some true; Some false].
Proof.
  apply boundary_five_then_denied.
  - reflexivity.
  - lia.
  - vm_compute. reflexivity.
Defined.

(** ** Faults and damaged records *)



(** A record without a [tokens] field counts as no record: the guard of
    line 146 starts a new bucket, whatever the other fields hold. *)
Lemma record_without_tokens_is_reinitialized :
  let damaged : store :=
    {[ "rate_limit:k" := Entry {[ "last_refill" := Garbage "yesterday" ]} None ]} in
  let r := check (connect (init "redis://localhost:6379/0" true))
             "k" 5 60 (101 # 1) damaged in
  fst r = Returned (mkDecision true 5 4 161 0)
  /\ store_hgetall (snd r) "rate_limit:k" !! "tokens" = Some (Num (of_int 4))
  /\ store_hgetall (snd r) "rate_limit:k" !! "last_refill"
     = Some (Num (Fin (101 # 1))).
Proof. cbv zeta. repeat split; by_vm. Qed.

(** A missing [last_refill] field is a [KeyError], raised the same way. *)
Lemma missing_last_refill_raises :
  let damaged : store :=
    {[ "rate_limit:k" := Entry {[ "tokens" := Num (of_int 3) ]} None ]} in
  run (check_rate_limit (connect (init "redis://localhost:6379/0" true))
         "k" 5 60 (101 # 1)) [] damaged
  = (Raised KeyError, damaged).
Proof. cbv zeta. by_vm. Qed.

(** A connection error raised by the first command is turned into the
    configured fallback. *)
Lemma connection_error_degrades self key max_requests window_seconds now faults s :
  redis self = Some RedisClient ->
  fault_at 0 faults = Some ConnectionError ->
  run (check_rate_limit self key max_requests window_seconds now) faults s
  = (Returned (degraded self max_requests window_seconds now), s).
Proof.
  intros Hc Hf. rewrite run_check_rate_limit. unfold check_direct.
  by rewrite Hc, Hf.
Qed.

Lemma degraded_fail_open self max_requests window_seconds now :
  fail_open self = true ->
  let d := degraded self max_requests window_seconds now in
  allowed d = true /\ remaining d = max_requests /\ retry_after d = 0%Z.
Proof. intros H. unfold degraded. by rewrite H. Qed.

Lemma degraded_fail_closed self max_requests window_seconds now :
  fail_open self = false ->
  let d := degraded self max_requests window_seconds now in
  allowed d = false /\ remaining d = 0%Z /\ retry_after d = window_seconds.
Proof. intros H. unfold degraded. by rewrite H. Qed.

(** A timeout of the first command is not an instance of the caught
    class: it reaches the caller. *)
Lemma timeout_reaches_caller self key max_requests window_seconds now faults s :
  redis self = Some RedisClient ->
  fault_at 0 faults = Some TimeoutError ->
  run (check_rate_limit self key max_requests window_seconds now) faults s
  = (Raised (RedisError TimeoutError), s).
Proof.
  intros Hc Hf. rewrite run_check_rate_limit. unfold check_direct.
  by rewrite Hc, Hf.
Qed.

(** C6 at the input of [test_fail_open_allows_requests] and
    [test_fail_closed_blocks_requests]: a limiter that was never connected
    has [self.redis = None], the call raises [AttributeError], which the
    [except] clause does not match, and no decision is returned, whatever
    [fail_open] says. *)
Theorem unreachable_store_raises fo faults s :
  run (check_rate_limit (init "redis://invalid-host:6379" fo) "test" 5 60
         (1700000000 # 1)) faults s
  = (Raised AttributeError, s).
Proof. rewrite run_check_rate_limit. reflexivity. Qed.

(** ** Keys *)

(** C5 on the inputs of [test_key_injection_prevention]: the key built
    from a forwarded address keeps the semicolon and the line feed of the
    header, and with a header of 10 000 characters it is 10 014 characters
    long. *)
Theorem rate_limit_key_is_not_sanitized :
  let request v := mkRequest (Some v) (Some "10.0.0.1") "/api/login" in
  let key v := "ip:" +:+ v +:+ ":/api/login" in
  let injected := "1.1.1.1" +:+ String newline "FLUSHDB" in
  let long := repeat_char "x" (Z.to_nat 10000) in
  get_rate_limit_key (request "1.1.1.1; FLUSHALL") "ip" None
  = inr (key "1.1.1.1; FLUSHALL")
  /\ mem ";" (key "1.1.1.1; FLUSHALL") = true
  /\ get_rate_limit_key (request injected) "ip" None = inr (key injected)
  /\ mem newline (key injected) = true
  /\ get_rate_limit_key (request long) "ip" None = inr (key long)
  /\ Z.of_nat (String.length (key long)) = 10014%Z.
Proof. cbv zeta. repeat split; by_vm. Qed.

(** ** Concurrent calls *)

Lemma interleave_app {A} (a b : list nat) (tasks : list (prog A)) s :
  interleave (a ++ b) tasks s
  = let '(tasks', s') := interleave a tasks s in interleave b tasks' s'.
Proof.
  revert tasks s. induction a as [|i a IH]; intros tasks s; [reflexivity|].
  cbn [interleave app]. destruct (tasks !! i) as [p|]; [|apply IH].
  destruct (resume p s). apply IH.
Qed.

Lemma replicate_S_app {A} (x : A) m (l : list A) :
  (replicate (S m) x ++ l = replicate m x ++ x :: l)%list.
Proof. rewrite replicate_S_end, <- app_assoc. reflexivity. Qed.

(** One round over tasks that are all suspended at the same command. *)
Lemma interleave_round_from {A} (P P' : prog A) (f : store -> store)
    (R : store -> Prop) :
  (forall s, R s -> resume P s = (P', f s) /\ R (f s)) ->
  forall n m s, R s ->
    interleave (seq m n) (replicate m P' ++ replicate n P)%list s
    = ((replicate m P' ++ replicate n P')%list, Nat.iter n f s) /\ R (Nat.iter n f s).
Proof.
  intros Hstep. induction n as [|n IH]; intros m s Hs; [done|].
  cbn [seq interleave].
  rewrite lookup_app_r by (rewrite length_replicate; lia).
  rewrite length_replicate, Nat.sub_diag. cbn [replicate lookup list_lookup].
  destruct (Hstep s Hs) as [-> Hfs].
  replace (<[m:=P']> (replicate m P' ++ P :: replicate n P)%list)
    with (replicate (S m) P' ++ replicate n P)%list.
  - destruct (IH (S m) (f s) Hfs) as [-> HR]. rewrite Nat.iter_succ_r.
    split; [|done]. f_equal. apply replicate_S_app.
  - rewrite insert_app_r_alt by (rewrite length_replicate; lia).
    rewrite length_replicate, Nat.sub_diag. cbn [insert list_insert].
    apply replicate_S_app.
Qed.

Lemma interleave_round {A} (P P' : prog A) (f : store -> store)
    (R : store -> Prop) n s :
  (forall s, R s -> resume P s = (P', f s) /\ R (f s)) -> R s ->
  interleave (round n) (replicate n P) s = (replicate n P', Nat.iter n f s).
Proof.
  intros Hstep Hs.
  apply (interleave_round_from P P' f R Hstep n 0 s Hs).
Qed.

Section ReadFirst.
Variables (self : RateLimiter) (key : string).
Variables (max_requests window_seconds : Z) (now : Q).
Hypothesis connected : redis self = Some RedisClient.

Lemma resume_hgetall s :
  s !! ("rate_limit:" +:+ key) = None -> (0 < max_requests)%Z ->
  resume (check_rate_limit self key max_requests window_seconds now) s
  = (awaiting_hset self key max_requests window_seconds now
       (of_int (max_requests - 1)), s).
Proof.
  intros Hk Hm.
  unfold check_rate_limit, check_body, awaiting_hset. rewrite connected.
  prog_simpl. cbn [resume]. rewrite (store_hgetall_absent _ _ Hk).
  prog_simpl. rewrite take_token_absent. prog_simpl.
  rewrite geb_of_int. destruct (Z.leb_spec 0 (max_requests - 1)); [|lia].
  reflexivity.
Qed.

Lemma resume_hset tokens s :
  resume (awaiting_hset self key max_requests window_seconds now tokens) s
  = (awaiting_expire self key max_requests window_seconds now tokens,
     store_hset s ("rate_limit:" +:+ key) (bucket_mapping tokens now)).
Proof. unfold awaiting_hset, awaiting_expire. rewrite connected. reflexivity. Qed.

Lemma resume_expire q s :
  resume (awaiting_expire self key max_requests window_seconds now (Fin q)) s
  = (Ret (mkDecision true max_requests (Z.max 0 (trunc q))
            (trunc (now + inject_Z window_seconds)) 0),
     store_expire s ("rate_limit:" +:+ key) (window_seconds * 2)).
Proof. unfold awaiting_expire. rewrite connected. reflexivity. Qed.

Lemma count_allowed_replicate n d :
  allowed d = true -> count_allowed (replicate n (Ret d)) = n.
Proof.
  intros Hd. unfold count_allowed. induction n as [|n IH]; [reflexivity|].
  cbn [replicate]. rewrite filter_cons_True by exact Hd. cbn. by rewrite IH.
Qed.

(** C1 on the code: the calls of [asyncio.gather] are suspended at each
    of their three commands.  When every call has read the bucket
    before any of them writes it, every call finds the key absent, and
    all [n] of them return [allowed = True], whatever the capacity. *)
Theorem concurrent_checks_all_allowed n s :
  (0 < max_requests)%Z -> s !! ("rate_limit:" +:+ key) = None ->
  let tasks := gather n self key max_requests window_seconds now in
  let tasks' := fst (interleave (round n ++ round n ++ round n) tasks s) in
  Forall (fun p => finished p = true) tasks' /\ count_allowed tasks' = n.
Proof.
  intros Hm Hk. cbv zeta. unfold gather.
  rewrite interleave_app.
  rewrite (interleave_round _ _ (fun s => s) (fun s' => s' = s) n s
             ltac:(intros ? ->; split; [by apply resume_hgetall|done])
             eq_refl).
  cbv beta iota. rewrite interleave_app.
  rewrite (interleave_round _ _ _ (fun _ => True) n _
             ltac:(intros s' _; split; [apply resume_hset|done]) I).
  cbv beta iota. unfold of_int.
  rewrite (interleave_round _ _ _ (fun _ => True) n _
             ltac:(intros s' _; split; [apply resume_expire|done]) I).
  cbn [fst]. split.
  - apply Forall_replicate. reflexivity.
  - by apply count_allowed_replicate.
Qed.
End ReadFirst.

Lemma concurrent_checks_all_allowed_witness :
  let self := connect (init "redis://localhost:6379/15" true) in
  let tasks := gather 20 self "concurrent_test" 10 60 (1700000000 # 1) in
  count_allowed (fst (interleave (round 20 ++ round 20 ++ round 20) tasks ∅)) = 20.
Proof.
  cbv zeta.
  refine (proj2 (concurrent_checks_all_allowed
                   (connect (init "redis://localhost:6379/15" true))
                   "concurrent_test" 10 60 (1700000000 # 1) _ 20 ∅ _ _)).
  - reflexivity.
  - lia.
  - vm_compute. reflexivity.
Defined.

(** The same twenty calls, each run to its end before the next starts:
    ten are allowed. *)
Lemma serial_checks_respect_capacity :
  let self := connect (init "redis://localhost:6379/15" true) in
  let tasks := gather 20 self "concurrent_test" 10 60 (1700000000 # 1) in
  count_allowed (fst (interleave (one_by_one 20) tasks ∅)) = 10.
Proof. cbv zeta. by_vm. Qed.

(** * Further properties of [check_rate_limit] *)

(** ** Other keys *)

(** X1: a call reads and writes the record of its own key only: under
    any fault script, the record and the time to live of every other key
    are what they were. *)
Theorem check_leaves_other_keys self key max_requests window_seconds now
    faults s k' :
  k' ≠ "rate_limit:" +:+ key ->
  snd (run (check_rate_limit self key max_requests window_seconds now) faults s)
    !! k' = s !! k'.
Proof.
  intros Hne. rewrite run_check_rate_limit. by apply check_direct_frame.
Qed.

Lemma check_leaves_other_keys_witness :
  let self := connect (init "redis://localhost:6379/0" true) in
  let s : store := {[ "rate_limit:ip:10.0.0.2:/api/login" :=
                        Entry (bucket_mapping (of_int 0) (90 # 1)) (Some 120%Z) ]} in
  snd (check self "ip:10.0.0.1:/api/login" 5 60 (100 # 1) s)
    !! "rate_limit:ip:10.0.0.2:/api/login"
  = s !! "rate_limit:ip:10.0.0.2:/api/login".
Proof.
  cbv zeta.
  apply (check_leaves_other_keys
           (connect (init "redis://localhost:6379/0" true))
           "ip:10.0.0.1:/api/login" 5 60 (100 # 1) []).
  discriminate.
Defined.

(** ** The returned dict *)

Lemma trunc_nonneg q : (0 <= q)%Q -> (0 <= trunc q)%Z.
Proof.
  unfold trunc, Qle; cbn. intros H. apply Z.quot_pos; lia.
Qed.

Lemma trunc_le q z : (0 <= q)%Q -> (q <= inject_Z z)%Q -> (trunc q <= z)%Z.
Proof.
  unfold trunc, Qle; cbn. intros H0 H.
  apply Z.quot_le_upper_bound; lia.
Qed.

Lemma trunc_nonpos q : (q <= 0)%Q -> (trunc q <= 0)%Z.
Proof.
  unfold trunc, Qle; cbn. intros H.
  assert (Hn : (Qnum q <= 0)%Z) by lia.
  rewrite <- (Z.opp_involutive (Qnum q)), Z.quot_opp_l by lia.
  assert (0 <= Z.quot (- Qnum q) (Z.pos (Qden q)))%Z by (apply Z.quot_pos; lia).
  lia.
Qed.

(** What [take_token] leaves is never [nan] and never [inf]. *)
Lemma take_token_shape max_requests window_seconds now (b : bucket) tokens :
  take_token max_requests window_seconds now b = inr tokens ->
  tokens = NInf \/ exists q, tokens = Fin q /\ (q <= inject_Z max_requests - 1)%Q.
Proof.
  unfold take_token.
  destruct (is_empty b || negb (contains b "tokens")).
  - intros [= <-]. right. eexists. split; [reflexivity|].
    rewrite inject_Z_pred. lra.
  - destruct (subscript b "tokens") as [?|ts]; [discriminate|]; raising_simpl.
    destruct (py_float ts) as [?|t]; [discriminate|]; raising_simpl.
    destruct (subscript b "last_refill") as [?|ls]; [discriminate|]; raising_simpl.
    destruct (py_float ls) as [?|l]; [discriminate|]; raising_simpl.
    unfold refill. destruct (truediv _ _) as [?|rate]; [discriminate|]; raising_simpl.
    intros [= <-]. unfold py_min.
    destruct (add t (mul (elapsed now l) rate)) as [x| | |]; cbn [ltb of_int].
    + destruct (Qltb x (inject_Z max_requests)) eqn:E; right;
        (eexists; split; [reflexivity|]).
      * apply Qltb_lt in E. change (inject_Z 1) with 1%Q. lra.
      * change (inject_Z 1) with 1%Q. lra.
    + right. eexists. split; [reflexivity|]. change (inject_Z 1) with 1%Q. lra.
    + left. reflexivity.
    + right. eexists. split; [reflexivity|]. change (inject_Z 1) with 1%Q. lra.
Qed.

Lemma geb_false_neg q : geb (Fin q) (of_int 0) = false -> (q < 0)%Q.
Proof.
  intros H. destruct (Qlt_le_dec q 0) as [|Hge]; [done|].
  apply geb_zero in Hge. congruence.
Qed.

(** The shape of every dict that is returned. *)
Lemma returned_decision self key max_requests window_seconds now faults s d s' :
  (0 <= max_requests)%Z ->
  run (check_rate_limit self key max_requests window_seconds now) faults s
  = (Returned d, s') ->
  limit d = max_requests
  /\ (0 <= remaining d <= max_requests)%Z
  /\ reset d = trunc (now + inject_Z window_seconds)
  /\ (allowed d = false -> remaining d = 0%Z /\ retry_after d = window_seconds)
  /\ (allowed d = true -> retry_after d = 0%Z).
Proof.
  intros Hcap. rewrite run_check_rate_limit. unfold check_direct.
  assert (Hdeg : forall e o,
             caught self max_requests window_seconds now e = Returned o ->
             limit o = max_requests
             /\ (0 <= remaining o <= max_requests)%Z
             /\ reset o = trunc (now + inject_Z window_seconds)
             /\ (allowed o = false -> remaining o = 0%Z /\ retry_after o = window_seconds)
             /\ (allowed o = true -> retry_after o = 0%Z)).
  { intros e o Hc. apply caught_returned in Hc as [_ ->].
    unfold degraded.
    destruct (fail_open self); cbn [allowed limit remaining reset retry_after];
      repeat split; (lia || done). }
  destruct (redis self); [|discriminate].
  destruct (fault_at 0 faults); [intros [= H _]; by eapply Hdeg|].
  destruct (take_token _ _ _ _) as [e|tokens] eqn:Etake; [intros [= H _]; by eapply Hdeg|].
  assert (Hfin : finish self max_requests window_seconds now
                   (response max_requests window_seconds now tokens
                      (geb tokens (of_int 0))) = Returned d ->
                 limit d = max_requests
                 /\ (0 <= remaining d <= max_requests)%Z
                 /\ reset d = trunc (now + inject_Z window_seconds)
                 /\ (allowed d = false -> remaining d = 0%Z /\ retry_after d = window_seconds)
                 /\ (allowed d = true -> retry_after d = 0%Z)).
  { destruct (take_token_shape _ _ _ _ _ Etake) as [->|(q & -> & Hq)];
      [cbn; discriminate|].
    rewrite response_finite. cbn [finish].
    destruct (geb (Fin q) (of_int 0)) eqn:G; intros [= <-];
      cbn [allowed limit remaining reset retry_after negb].
    - apply geb_zero in G. pose proof (trunc_nonneg q G).
      assert (trunc q <= max_requests - 1)%Z.
      { apply trunc_le; [done|]. rewrite inject_Z_pred. lra. }
      repeat split; (lia || done).
    - apply geb_false_neg in G.
      assert (trunc q <= 0)%Z by (apply trunc_nonpos; lra).
      repeat split; (lia || done). }
  destruct (geb tokens (of_int 0)) eqn:G.
  - destruct (fault_at 1 faults); [intros [= H _]; by eapply Hdeg|].
    destruct (fault_at 2 faults); [intros [= H _]; by eapply Hdeg|].
    intros [= H _]. by apply Hfin.
  - intros [= H _]. by apply Hfin.
Qed.

(** X2: whatever the store holds and whichever commands fail, a dict that
    is returned for a capacity that is not negative has [limit] equal to
    the capacity, [remaining] between 0 and the capacity, [reset] at
    [int(now + window_seconds)], and, when it denies, [remaining = 0] and
    [retry_after = window_seconds]; when it allows, [retry_after = 0]. *)
Theorem decision_contract self key max_requests window_seconds now faults s d s' :
  (0 <= max_requests)%Z ->
  run (check_rate_limit self key max_requests window_seconds now) faults s
  = (Returned d, s') ->
  limit d = max_requests
  /\ (0 <= remaining d <= max_requests)%Z
  /\ reset d = trunc (now + inject_Z window_seconds)
  /\ (allowed d = false -> remaining d = 0%Z /\ retry_after d = window_seconds)
  /\ (allowed d = true -> retry_after d = 0%Z).
Proof. apply returned_decision. Qed.

Lemma decision_contract_witness :
  let self := connect (init "redis://localhost:6379/0" true) in
  let d := mkDecision true 5 4 160 0 in
  limit d = 5%Z /\ (0 <= remaining d <= 5)%Z.
Proof.
  cbv zeta.
  destruct (decision_contract
              (connect (init "redis://localhost:6379/0" true))
              "k" 5 60 (100 # 1) [] ∅ (mkDecision true 5 4 160 0)
              (snd (check (connect (init "redis://localhost:6379/0" true))
                      "k" 5 60 (100 # 1) ∅)))
    as (H1 & H2 & _).
  - lia.
  - by_vm.
  - split; assumption.
Defined.

(** ** Existing buckets *)

(** A call on a record of finite numbers, with a connected client and a
    store that answers. *)
Lemma check_well_formed self key max_requests window_seconds now s t l :
  redis self = Some RedisClient -> window_seconds ≠ 0%Z ->
  well_formed s key t l ->
  check self key max_requests window_seconds now s
  = let q := (refilled max_requests window_seconds now t l - 1)%Q in
    if Qle_bool 0 q
    then (Returned (mkDecision true max_requests (Z.max 0 (trunc q))
                      (trunc (now + inject_Z window_seconds)) 0),
          store_expire
            (store_hset s ("rate_limit:" +:+ key) (bucket_mapping (Fin q) now))
            ("rate_limit:" +:+ key) (window_seconds * 2))
    else (Returned (mkDecision false max_requests (Z.max 0 (trunc q))
                      (trunc (now + inject_Z window_seconds)) window_seconds),
          s).
Proof.
  intros Hc Hw (e & He & Ht & Hl).
  rewrite (check_connected _ _ _ _ _ _ Hc). cbv zeta.
  unfold store_hgetall at 1. rewrite He.
  rewrite (take_token_finite _ _ _ _ _ _ Ht Hl Hw).
  rewrite response_finite. cbn [finish geb of_int].
  change (inject_Z 0) with 0%Q. unfold refilled.
  by destruct (Qle_bool 0 _).
Qed.

Lemma refilled_spec max_requests window_seconds now t l :
  let x := (t + (now - l) * (inject_Z max_requests / inject_Z window_seconds))%Q in
  (refilled max_requests window_seconds now t l <= x)%Q
  /\ (refilled max_requests window_seconds now t l <= inject_Z max_requests)%Q
  /\ ((refilled max_requests window_seconds now t l == x)%Q
      \/ refilled max_requests window_seconds now t l = inject_Z max_requests).
Proof.
  cbv zeta. unfold refilled.
  destruct (Qltb _ _) eqn:E.
  - apply Qltb_lt in E. repeat split; [lra..|]. left. reflexivity.
  - apply Qltb_ge in E. repeat split; [lra..|]. by right.
Qed.

(** X3: a record that holds at least one token and whose [last_refill]
    is not later than [now] admits the next request, whatever else it
    holds, for a capacity of at least 1: the refill of a clock that has
    not gone backwards only adds tokens.  (The capacity is below 2^1023,
    so that [max_requests / window_seconds] is a float, and twice the
    window is a number of seconds the store accepts.) *)
Theorem stored_token_is_admitted self key max_requests window_seconds now
    s t l :
  redis self = Some RedisClient ->
  (1 <= max_requests < 2 ^ 1023)%Z ->
  (0 < window_seconds)%Z -> (window_seconds * 2 < 2 ^ 63)%Z ->
  well_formed s key t l -> (1 <= t)%Q -> (l <= now)%Q ->
  exists d,
    fst (check self key max_requests window_seconds now s) = Returned d
    /\ allowed d = true /\ retry_after d = 0%Z.
Proof.
  intros Hc [Hm _] Hw _ Hwf Ht Hl.
  assert (Hw0 : window_seconds ≠ 0%Z) by lia.
  rewrite (check_well_formed _ _ _ _ _ _ _ _ Hc Hw0 Hwf). cbv zeta.
  destruct (refilled_spec max_requests window_seconds now t l) as (_ & _ & Hcase).
  assert (Hcap : (1 <= inject_Z max_requests)%Q).
  { change 1%Q with (inject_Z 1). rewrite <- Zle_Qle. lia. }
  assert (Hr : (0 < inject_Z max_requests / inject_Z window_seconds)%Q)
    by (apply refill_rate_positive; lia).
  assert (Hadd : (0 <= (now - l) * (inject_Z max_requests / inject_Z window_seconds))%Q)
    by (apply Qmult_le_0_compat; lra).
  assert (Hle : Qle_bool 0 (refilled max_requests window_seconds now t l - 1) = true).
  { apply Qle_bool_iff. destruct Hcase as [Hc1|Hc2]; [rewrite Hc1|rewrite Hc2]; lra. }
  rewrite Hle. eexists. split; [reflexivity|]. split; reflexivity.
Qed.

Lemma stored_token_is_admitted_witness :
  let self := connect (init "redis://localhost:6379/0" true) in
  let s : store := {[ "rate_limit:k" :=
                        Entry (bucket_mapping (of_int 1) (100 # 1)) (Some 120%Z) ]} in
  exists d, fst (check self "k" 5 60 (103 # 1) s) = Returned d
            /\ allowed d = true.
Proof.
  cbv zeta.
  destruct (stored_token_is_admitted
              (connect (init "redis://localhost:6379/0" true))
              "k" 5 60 (103 # 1)
              {[ "rate_limit:k" :=
                   Entry (bucket_mapping (of_int 1) (100 # 1)) (Some 120%Z) ]}
              (inject_Z 1) (100 # 1))
    as (d & Hd & Hal & _).
  - reflexivity.
  - split; [lia|reflexivity].
  - lia.
  - reflexivity.
  - exists (Entry (bucket_mapping (of_int 1) (100 # 1)) (Some 120%Z)).
    split; [by_vm|]. split; by_vm.
  - vm_compute. discriminate.
  - vm_compute. discriminate.
  - exists d. split; assumption.
Defined.

Lemma idle_window_refills max_requests window_seconds now t l :
  (0 < max_requests)%Z -> (0 < window_seconds)%Z -> (0 <= t)%Q ->
  (inject_Z window_seconds <= now - l)%Q ->
  refilled max_requests window_seconds now t l = inject_Z max_requests.
Proof.
  intros Hm Hw Ht Hidle. unfold refilled.
  destruct (Qltb _ _) eqn:E; [|reflexivity]. exfalso.
  apply Qltb_lt in E.
  pose proof (refill_rate_positive _ _ Hm Hw) as Hr.
  set (r := (inject_Z max_requests / inject_Z window_seconds)%Q) in *.
  assert (Hwr : (inject_Z window_seconds * r == inject_Z max_requests)%Q).
  { unfold r. field. unfold Qeq; cbn. lia. }
  assert (Hge : (inject_Z window_seconds * r <= (now - l) * r)%Q).
  { apply Qmult_le_compat_r; lra. }
  lra.
Qed.

(** X4: after a full window without an allowed request, a bucket whose
    stored tokens are not negative admits the next request, for a
    capacity of at least 2, and reports at least [max_requests - 2] and at
    most [max_requests - 1] requests remaining.  (A capacity of 1 is left
    out, and the count is given as a range, because the tokens won over
    exactly one window, [window_seconds * (max_requests / window_seconds)],
    are a rounded product that may fall a hair short of the capacity; the
    capacity is below 2^50 so that this shortfall stays below one token.) *)
Theorem idle_window_admits self key max_requests window_seconds now s t l :
  redis self = Some RedisClient ->
  (2 <= max_requests < 2 ^ 50)%Z ->
  (0 < window_seconds)%Z -> (window_seconds * 2 < 2 ^ 63)%Z ->
  well_formed s key t l -> (0 <= t)%Q ->
  (inject_Z window_seconds <= now - l)%Q ->
  exists d,
    fst (check self key max_requests window_seconds now s) = Returned d
    /\ allowed d = true
    /\ (max_requests - 2 <= remaining d <= max_requests - 1)%Z
    /\ retry_after d = 0%Z.
Proof.
  intros Hc [Hm _] Hw _ Hwf Ht Hidle.
  assert (Hw0 : window_seconds ≠ 0%Z) by lia.
  assert (Hm0 : (0 < max_requests)%Z) by lia.
  rewrite (check_well_formed _ _ _ _ _ _ _ _ Hc Hw0 Hwf). cbv zeta.
  rewrite (idle_window_refills _ _ _ _ _ Hm0 Hw Ht Hidle).
  assert (Eq : (inject_Z max_requests - 1 == inject_Z (max_requests - 1))%Q)
    by (by rewrite inject_Z_pred).
  assert (Hle : Qle_bool 0 (inject_Z max_requests - 1) = true).
  { apply Qle_bool_iff. rewrite Eq. change 0%Q with (inject_Z 0).
    rewrite <- Zle_Qle. lia. }
  rewrite Hle, (trunc_integer _ _ Eq).
  eexists. split; [reflexivity|]. cbn [allowed remaining retry_after].
  split; [reflexivity|]. split; [lia|reflexivity].
Qed.

Lemma idle_window_admits_witness :
  let self := connect (init "redis://localhost:6379/0" true) in
  let s : store := {[ "rate_limit:k" :=
                        Entry (bucket_mapping (of_int 0) (100 # 1)) (Some 120%Z) ]} in
  exists d, fst (check self "k" 5 60 (160 # 1) s) = Returned d
            /\ allowed d = true /\ (3 <= remaining d <= 4)%Z.
Proof.
  cbv zeta.
  destruct (idle_window_admits
              (connect (init "redis://localhost:6379/0" true))
              "k" 5 60 (160 # 1)
              {[ "rate_limit:k" :=
                   Entry (bucket_mapping (of_int 0) (100 # 1)) (Some 120%Z) ]}
              (inject_Z 0) (100 # 1))
    as (d & Hd & Hal & Hrem & _).
  - reflexivity.
  - split; [lia|reflexivity].
  - lia.
  - reflexivity.
  - exists (Entry (bucket_mapping (of_int 0) (100 # 1)) (Some 120%Z)).
    split; [by_vm|]. split; by_vm.
  - vm_compute. discriminate.
  - vm_compute. discriminate.
  - exists d. split; [exact Hd|]. split; [exact Hal|]. lia.
Defined.

(** ** Any number of calls at one instant *)

Lemma allowed_count_cons o os :
  allowed_count (o :: os)
  = ((if decide (allowed_of o = Some true) then 1 else 0) + allowed_count os)%nat.
Proof.
  unfold allowed_count. rewrite filter_cons. by destruct (decide _).
Qed.

Lemma sequential_cons n self key max_requests window_seconds now s o s1 :
  check self key max_requests window_seconds now s = (o, s1) ->
  allowed_count (fst (sequential (S n) self key max_requests window_seconds now s))
  = ((if decide (allowed_of o = Some true) then 1 else 0)
     + allowed_count (fst (sequential n self key max_requests window_seconds now s1)))%nat.
Proof.
  intros H. rewrite (sequential_S _ _ _ _ _ _ _ _ _ H). apply allowed_count_cons.
Qed.

(** A call that is not allowed and leaves the store alone is repeated
    without end. *)
Lemma refused_forever self key max_requests window_seconds now s o :
  check self key max_requests window_seconds now s = (o, s) ->
  allowed_of o ≠ Some true ->
  forall n,
    allowed_count (fst (sequential n self key max_requests window_seconds now s)) = 0.
Proof.
  intros Hrun Hno. induction n as [|n IH]; [reflexivity|].
  rewrite (sequential_cons _ _ _ _ _ _ _ _ _ Hrun), IH.
  by destruct (decide _).
Qed.

Lemma well_formed_after_write (s : store) key q now w :
  (0 < w)%Z ->
  well_formed (store_expire
                 (store_hset s ("rate_limit:" +:+ key) (bucket_mapping (Fin q) now))
                 ("rate_limit:" +:+ key) (w * 2))
    key q now.
Proof.
  intros Hw. unfold well_formed.
  erewrite lookup_store_expire by apply lookup_store_hset.
  destruct (Z.leb_spec (w * 2) 0); [lia|].
  eexists. split; [reflexivity|]. cbn [fields].
  by rewrite written_tokens, written_last_refill.
Qed.

Lemma refilled_same_instant max_requests window_seconds now q :
  (q <= inject_Z max_requests)%Q ->
  (refilled max_requests window_seconds now q now == q)%Q.
Proof.
  intros Hq. unfold refilled.
  assert (E : (q + (now - now) * (inject_Z max_requests / inject_Z window_seconds)
               == q)%Q) by ring.
  destruct (Qltb _ _) eqn:El; [exact E|].
  apply Qltb_ge in El. rewrite E in El. lra.
Qed.

(** From a bucket of [q] tokens refilled at this very instant, no more
    than [q] calls are allowed. *)
Lemma drain_bound self key max_requests window_seconds now :
  redis self = Some RedisClient -> (0 < window_seconds)%Z ->
  forall n s q,
    well_formed s key q now -> (0 <= q)%Q -> (q <= inject_Z max_requests)%Q ->
    (inject_Z (Z.of_nat (allowed_count
                           (fst (sequential n self key max_requests
                                   window_seconds now s)))) <= q)%Q.
Proof.
  intros Hc Hw. assert (Hw0 : window_seconds ≠ 0%Z) by lia.
  induction n as [|n IH]; intros s q Hwf Hq0 Hq; [exact Hq0|].
  pose proof (check_well_formed _ _ max_requests _ now _ _ _ Hc Hw0 Hwf) as Hrun.
  cbv zeta in Hrun.
  pose proof (refilled_same_instant max_requests window_seconds now q Hq) as Er.
  destruct (Qle_bool 0 _) eqn:E.
  - apply Qle_bool_iff in E.
    rewrite (sequential_cons _ _ _ _ _ _ _ _ _ Hrun). cbn [allowed_of allowed].
    destruct (decide (Some true = Some true)); [|done].
    specialize (IH _ _ (well_formed_after_write s key _ now _ Hw) E ltac:(lra)).
    rewrite Nat2Z.inj_add, inject_Z_plus. change (inject_Z (Z.of_nat 1)) with 1%Q.
    lra.
  - rewrite (sequential_cons _ _ _ _ _ _ _ _ _ Hrun). cbn [allowed_of allowed].
    destruct (decide (Some false = Some true)); [done|].
    by apply IH.
Qed.

(** X5: with a positive window and a clock that stands still, any number
    of calls in a row on one key lets at most [max_requests] of them
    through, whatever the store held at the start: an absent key, a full
    bucket, or a record tampered with ([tokens] set to 999999, [inf],
    [nan], an unreadable string). *)
Theorem sequential_calls_bounded self key max_requests window_seconds now n s :
  (0 < window_seconds)%Z ->
  (Z.of_nat (allowed_count
               (fst (sequential n self key max_requests window_seconds now s)))
   <= Z.max 0 max_requests)%Z.
Proof.
  intros Hw. destruct n as [|n]; [cbn; lia|].
  destruct (check self key max_requests window_seconds now s) as [o s1] eqn:Hrun.
  pose proof Hrun as Hdir. unfold check in Hdir.
  rewrite run_check_rate_limit in Hdir. unfold check_direct in Hdir.
  rewrite !fault_at_nil in Hdir.
  assert (Hstuck : s1 = s -> allowed_of o ≠ Some true ->
                   (Z.of_nat (allowed_count
                                (fst (sequential (S n) self key max_requests
                                        window_seconds now s)))
                    <= Z.max 0 max_requests)%Z).
  { intros -> Hno. rewrite (refused_forever _ _ _ _ _ _ _ Hrun Hno). lia. }
  destruct (redis self) as [[]|] eqn:Hc; [|injection Hdir as <- <-; by apply Hstuck].
  destruct (take_token _ _ _ _) as [e|tokens] eqn:Etake.
  { injection Hdir as <- <-. apply Hstuck; [done|].
    apply take_token_not_connection_error in Etake.
    unfold caught. by rewrite Etake. }
  destruct (geb tokens (of_int 0)) eqn:G.
  - destruct (take_token_allowed_range _ _ _ _ _ Etake G) as (q & -> & Hq0 & Hq1).
    rewrite response_finite in Hdir. cbn [finish] in Hdir. injection Hdir as <- <-.
    rewrite (sequential_cons _ _ _ _ _ _ _ _ _ Hrun). cbn [allowed_of allowed].
    destruct (decide (Some true = Some true)); [|done].
    pose proof (drain_bound self key max_requests window_seconds now Hc Hw n _ q
                  (well_formed_after_write s key q now _ Hw) Hq0 ltac:(lra)) as Hb.
    assert (Hz : (inject_Z (Z.of_nat (allowed_count
                     (fst (sequential n self key max_requests window_seconds now
                             (store_expire
                                (store_hset s ("rate_limit:" +:+ key)
                                   (bucket_mapping (Fin q) now))
                                ("rate_limit:" +:+ key) (window_seconds * 2))))))
                  <= inject_Z (max_requests - 1))%Q).
    { rewrite inject_Z_pred. lra. }
    rewrite <- Zle_Qle in Hz. lia.
  - injection Hdir as <- <-. apply Hstuck; [done|].
    destruct (response _ _ _ _ _) as [e|d] eqn:Er; cbn [finish].
    + apply response_not_connection_error in Er. unfold caught. by rewrite Er.
    + apply response_allowed in Er. cbn. congruence.
Qed.

Lemma sequential_calls_bounded_witness :
  let self := connect (init "redis://localhost:6379/15" true) in
  let tampered : store :=
    {[ "rate_limit:test:bypass" :=
         Entry (bucket_mapping (of_int 999999) (100 # 1)) None ]} in
  (Z.of_nat (allowed_count (fst (sequential 10 self "test:bypass" 5 60 (100 # 1)
                                   tampered))) <= 5)%Z.
Proof.
  cbv zeta.
  apply (sequential_calls_bounded
           (connect (init "redis://localhost:6379/15" true))
           "test:bypass" 5 60 (100 # 1) 10).
  lia.
Defined.

(** ** Edge values *)

Lemma check_existing self key max_requests window_seconds now s e ts :
  redis self = Some RedisClient ->
  s !! ("rate_limit:" +:+ key) = Some e ->
  fields e !! "tokens" = Some ts ->
  take_token max_requests window_seconds now (store_hgetall s ("rate_limit:" +:+ key))
  = (tokens ← py_float ts;
     last_refill_s ← subscript (fields e) "last_refill";
     last_refill ← py_float last_refill_s;
     tokens ← refill max_requests window_seconds now tokens last_refill;
     inr (sub tokens (of_int 1))).
Proof.
  intros Hc He Ht. unfold store_hgetall. rewrite He. unfold take_token.
  rewrite (is_empty_lookup _ _ _ Ht), (contains_lookup _ _ _ Ht). cbn [orb negb].
  assert (Es : subscript (fields e) "tokens" = inr ts)
    by (unfold subscript; by rewrite Ht).
  by rewrite Es.
Qed.

(** X6: a window of 0 seconds on a record whose two fields read as
    numbers makes the call raise [ZeroDivisionError]: the division of line
    156 is inside the [try], the [except] clause does not match, nothing is
    written and no decision is returned. *)
Theorem zero_window_raises self key max_requests now s e x y :
  redis self = Some RedisClient ->
  s !! ("rate_limit:" +:+ key) = Some e ->
  fields e !! "tokens" = Some (Num x) ->
  fields e !! "last_refill" = Some (Num y) ->
  check self key max_requests 0 now s = (Raised ZeroDivisionError, s).
Proof.
  intros Hc He Ht Hl. rewrite (check_connected _ _ _ _ _ _ Hc). cbv zeta.
  rewrite (check_existing _ _ _ _ _ _ _ _ Hc He Ht).
  unfold subscript. rewrite Hl. reflexivity.
Qed.

Lemma zero_window_raises_witness :
  let self := connect (init "redis://localhost:6379/0" true) in
  let s := snd (check self "k" 5 60 (100 # 1) ∅) in
  check self "k" 5 0 (101 # 1) s = (Raised ZeroDivisionError, s).
Proof.
  cbv zeta.
  eapply (zero_window_raises _ "k" 5 (101 # 1) _
            (Entry (bucket_mapping (of_int 4) (100 # 1)) (Some 120%Z))
            (of_int 4) (Fin (100 # 1))).
  - reflexivity.
  - by_vm.
  - by_vm.
  - by_vm.
Defined.

(** X7: a [tokens] field that reads as [inf] or [nan] is served as a full
    bucket, whatever [last_refill] reads as: [min] falls back on the
    capacity, the request is allowed and the record is rewritten with
    [max_requests - 1] tokens. *)
Theorem infinite_tokens_count_as_full self key max_requests window_seconds
    now s e x y :
  redis self = Some RedisClient ->
  (0 < max_requests)%Z -> (0 < window_seconds)%Z ->
  s !! ("rate_limit:" +:+ key) = Some e ->
  fields e !! "tokens" = Some (Num x) -> x = PInf \/ x = NaN ->
  fields e !! "last_refill" = Some (Num y) ->
  exists s',
    check self key max_requests window_seconds now s
    = (Returned (mkDecision true max_requests (max_requests - 1)
                   (trunc (now + inject_Z window_seconds)) 0), s')
    /\ holds s' key (max_requests - 1) now.
Proof.
  intros Hc Hm Hw He Ht Hx Hl. rewrite (check_connected _ _ _ _ _ _ Hc). cbv zeta.
  rewrite (check_existing _ _ _ _ _ _ _ _ Hc He Ht).
  unfold subscript. rewrite Hl. cbn [py_float mbind raising_bind].
  unfold refill. rewrite truediv_nonzero by lia. raising_simpl.
  assert (Hmin : py_min (of_int max_requests)
                   (add x (mul (elapsed now y)
                             (Fin (inject_Z max_requests / inject_Z window_seconds))))
                 = of_int max_requests).
  { unfold py_min, of_int.
    destruct Hx as [-> | ->]; [|reflexivity].
    destruct (mul _ _); reflexivity. }
  rewrite Hmin. unfold of_int. cbn [sub neg add].
  assert (Eq : (inject_Z max_requests + - inject_Z 1 == inject_Z (max_requests - 1))%Q).
  { rewrite inject_Z_pred. change (inject_Z 1) with 1%Q. ring. }
  assert (G : geb (Fin (inject_Z max_requests + - inject_Z 1)) (Fin (inject_Z 0)) = true).
  { apply geb_zero. rewrite Eq. change 0%Q with (inject_Z 0).
    rewrite <- Zle_Qle. lia. }
  rewrite G, response_finite. cbn [finish negb].
  rewrite (trunc_integer _ _ Eq).
  eexists. split; [do 3 f_equal; lia|].
  by apply holds_after_write.
Qed.

Lemma infinite_tokens_count_as_full_witness :
  let self := connect (init "redis://localhost:6379/0" true) in
  let s : store :=
    {[ "rate_limit:k" := Entry (bucket_mapping NaN (100 # 1)) None ]} in
  fst (check self "k" 5 60 (100 # 1) s) = Returned (mkDecision true 5 4 160 0).
Proof.
  cbv zeta.
  destruct (infinite_tokens_count_as_full
              (connect (init "redis://localhost:6379/0" true))
              "k" 5 60 (100 # 1)
              {[ "rate_limit:k" := Entry (bucket_mapping NaN (100 # 1)) None ]}
              (Entry (bucket_mapping NaN (100 # 1)) None) NaN (Fin (100 # 1)))
    as (s' & Hrun & _).
  - reflexivity.
  - lia.
  - lia.
  - by_vm.
  - by_vm.
  - by right.
  - by_vm.
  - rewrite Hrun. reflexivity.
Defined.

(** X8: a [tokens] field that reads as [-inf], next to a finite
    [last_refill], makes the call on the key raise [OverflowError]: the
    request is not allowed, nothing is written, and [int(tokens)] at line
    175 fails before a dict is built.  (The capacity and the time since
    [last_refill] are below 2^62 in size, so that [elapsed * refill_rate]
    is a finite float and [-inf] plus it is [-inf].) *)
Theorem negative_infinity_raises self key max_requests window_seconds now
    s e l :
  redis self = Some RedisClient -> window_seconds ≠ 0%Z ->
  (- 2 ^ 62 < max_requests < 2 ^ 62)%Z ->
  (- inject_Z (2 ^ 62) < now - l < inject_Z (2 ^ 62))%Q ->
  s !! ("rate_limit:" +:+ key) = Some e ->
  fields e !! "tokens" = Some (Num NInf) ->
  fields e !! "last_refill" = Some (Num (Fin l)) ->
  check self key max_requests window_seconds now s = (Raised OverflowError, s).
Proof.
  intros Hc Hw _ _ He Ht Hl. rewrite (check_connected _ _ _ _ _ _ Hc). cbv zeta.
  rewrite (check_existing _ _ _ _ _ _ _ _ Hc He Ht).
  unfold subscript. rewrite Hl. cbn [py_float mbind raising_bind].
  unfold refill. rewrite truediv_nonzero by done. reflexivity.
Qed.

Lemma negative_infinity_raises_witness :
  let self := connect (init "redis://localhost:6379/0" true) in
  let s : store :=
    {[ "rate_limit:k" := Entry (bucket_mapping NInf (100 # 1)) None ]} in
  check self "k" 5 60 (101 # 1) s = (Raised OverflowError, s).
Proof.
  cbv zeta.
  eapply (negative_infinity_raises _ "k" 5 60 (101 # 1) _
            (Entry (bucket_mapping NInf (100 # 1)) None) (100 # 1)).
  - reflexivity.
  - lia.
  - split; reflexivity.
  - split; reflexivity.
  - by_vm.
  - by_vm.
  - by_vm.
Defined.

(** * Client address and keys *)

(** ** [split] and [strip] *)

Lemma split_nonempty sep s : split sep s ≠ [].
Proof.
  destruct s as [|c s]; cbn [split]; [done|].
  destruct (Ascii.eqb c sep); [done|]. by destruct (split sep s).
Qed.

Lemma mem_append c a b : mem c (a +:+ b) = mem c a || mem c b.
Proof.
  induction a as [|d a IH]; simpl; [done|].
  by rewrite IH, orb_assoc.
Qed.

(** The first piece of [split] is what stands before the first
    separator. *)
Lemma split_first sep a b :
  mem sep a = false -> hd EmptyString (split sep (a +:+ String sep b)) = a.
Proof.
  induction a as [|c a IH]; simpl.
  - intros _. by rewrite Ascii.eqb_refl.
  - intros H. apply orb_false_iff in H as [Hc Ha].
    rewrite Ascii.eqb_sym, Hc. specialize (IH Ha).
    destruct (split sep (a +:+ String sep b)); simpl in *; by subst.
Qed.

Lemma split_whole sep a : mem sep a = false -> split sep a = [a].
Proof.
  induction a as [|c a IH]; cbn [mem split]; [done|].
  intros H. apply orb_false_iff in H as [Hc Ha].
  rewrite Ascii.eqb_sym, Hc, (IH Ha). reflexivity.
Qed.

Lemma split_first_no_sep sep s : mem sep (hd EmptyString (split sep s)) = false.
Proof.
  induction s as [|c s IH]; cbn [split hd mem]; [done|].
  destruct (Ascii.eqb c sep) eqn:E; [done|].
  destruct (split sep s) as [|x xs]; cbn [hd mem] in *.
  - by rewrite Ascii.eqb_sym, E.
  - by rewrite Ascii.eqb_sym, E, IH.
Qed.

Lemma mem_lstrip c s : mem c s = false -> mem c (lstrip s) = false.
Proof.
  induction s as [|d s IH]; cbn [lstrip mem]; [done|].
  intros H. destruct (is_space d); [|exact H].
  apply orb_false_iff in H as [_ H]. by apply IH.
Qed.

Lemma mem_rstrip c s : mem c s = false -> mem c (rstrip s) = false.
Proof.
  induction s as [|d s IH]; cbn [rstrip mem]; [done|].
  intros H. apply orb_false_iff in H as [Hd Hs]. specialize (IH Hs).
  destruct (rstrip s) as [|e t].
  - destruct (is_space d); cbn [mem]; [done|]. by rewrite Hd.
  - cbn [mem] in *. by rewrite Hd, IH.
Qed.

Lemma lstrip_starts s : starts_with_space (lstrip s) = false.
Proof.
  induction s as [|c s IH]; cbn [lstrip]; [done|].
  destruct (is_space c) eqn:E; [exact IH|]. exact E.
Qed.

Lemma rstrip_starts s : starts_with_space s = false -> starts_with_space (rstrip s) = false.
Proof.
  destruct s as [|c s]; cbn [rstrip starts_with_space]; [done|].
  intros H. destruct (rstrip s); [by rewrite H|exact H].
Qed.

Lemma rstrip_ends s : ends_with_space (rstrip s) = false.
Proof.
  induction s as [|c s IH]; cbn [rstrip]; [done|].
  destruct (rstrip s) as [|d t] eqn:E.
  - destruct (is_space c) eqn:Ec; cbn; [done|exact Ec].
  - exact IH.
Qed.

(** [strip] leaves a string as it is when there is nothing to strip. *)
Lemma rstrip_id s : ends_with_space s = false -> rstrip s = s.
Proof.
  induction s as [|c s IH]; cbn [rstrip]; [done|].
  destruct s as [|d s].
  - cbn. intros ->. reflexivity.
  - intros H. change (ends_with_space (String d s) = false) in H.
    rewrite (IH H). reflexivity.
Qed.

Lemma lstrip_id s : starts_with_space s = false -> lstrip s = s.
Proof. destruct s as [|c s]; cbn; [done|]. by intros ->. Qed.

(** ** [get_client_ip] *)

(** X9: when the request carries a non-empty [X-Forwarded-For] header,
    [get_client_ip] does not raise and does not look at the connection:
    it returns the header's first comma-separated entry, stripped, which
    holds no comma and no white space at either end. *)
Theorem forwarded_address_wins header client path :
  header ≠ EmptyString ->
  exists ip,
    get_client_ip (mkRequest (Some header) client path) = inr ip
    /\ ip = strip (hd EmptyString (split "," header))
    /\ mem "," ip = false
    /\ starts_with_space ip = false
    /\ ends_with_space ip = false.
Proof.
  intros Hne. destruct header as [|c f]; [done|].
  eexists. split; [reflexivity|]. split; [reflexivity|]. unfold strip.
  split; [|split].
  - apply mem_rstrip, mem_lstrip, split_first_no_sep.
  - apply rstrip_starts, lstrip_starts.
  - apply rstrip_ends.
Qed.

Lemma forwarded_address_wins_witness :
  get_client_ip (mkRequest (Some " 203.0.113.45 , 10.0.0.1, 10.0.0.2")
                   (Some "10.0.0.2") "/api/login")
  = inr "203.0.113.45".
Proof.
  destruct (forwarded_address_wins " 203.0.113.45 , 10.0.0.1, 10.0.0.2"
              (Some "10.0.0.2") "/api/login") as (ip & Hip & -> & _).
  - discriminate.
  - exact Hip.
Defined.

(** X10: the address is whatever the client wrote first in the header: for
    any text [v] without a comma and without white space at its ends, a
    header that starts with [v], alone or followed by a comma and anything
    else, yields exactly [v], whatever address the connection comes
    from. *)
Theorem forwarded_address_is_chosen_by_sender v rest client path :
  v ≠ EmptyString -> mem "," v = false ->
  starts_with_space v = false -> ends_with_space v = false ->
  get_client_ip (mkRequest (Some v) client path) = inr v
  /\ get_client_ip (mkRequest (Some (v +:+ String "," rest)) client path) = inr v.
Proof.
  intros Hne Hc Hs He.
  assert (Hstrip : strip v = v) by (unfold strip; by rewrite lstrip_id, rstrip_id).
  destruct v as [|c v]; [done|]. split.
  - unfold get_client_ip; cbn [x_forwarded_for].
    rewrite (split_whole _ _ Hc). cbn [hd]. by rewrite Hstrip.
  - change (String c v +:+ String "," rest) with (String c (v +:+ String "," rest)).
    unfold get_client_ip; cbn [x_forwarded_for].
    change (String c (v +:+ String "," rest)) with (String c v +:+ String "," rest).
    rewrite (split_first _ _ _ Hc). by rewrite Hstrip.
Qed.

Lemma forwarded_address_is_chosen_by_sender_witness :
  get_client_ip (mkRequest (Some "198.51.100.7, 203.0.113.45") (Some "203.0.113.45")
                   "/api/login")
  = inr "198.51.100.7".
Proof.
  apply (proj2 (forwarded_address_is_chosen_by_sender "198.51.100.7"
                  " 203.0.113.45" (Some "203.0.113.45") "/api/login"
                  ltac:(discriminate) eq_refl eq_refl eq_refl)).
Defined.

(** ** [get_rate_limit_key] *)

Lemma get_client_ip_raises request e :
  get_client_ip request = inl e <->
  falsy (x_forwarded_for request) = true /\ client_host request = None
  /\ e = AttributeError.
Proof.
  unfold get_client_ip, falsy.
  destruct (x_forwarded_for request) as [[|c f]|];
    destruct (client_host request); split;
    (intros [= <-] || intros (? & ? & ->)); done.
Qed.

(** X11: key building raises in three cases and no other: [ValueError]
    for the ['user'] strategy without a user id, [ValueError] for a
    strategy that is none of the three, and [AttributeError] for ['ip'] or
    ['combined'] on a request with neither a forwarded header nor a
    client. *)
Theorem key_building_raises request strategy user_id e :
  get_rate_limit_key request strategy user_id = inl e <->
  ((strategy = "ip" \/ strategy = "combined")
   /\ falsy (x_forwarded_for request) = true /\ client_host request = None
   /\ e = AttributeError)
  \/ (strategy = "user" /\ falsy user_id = true /\ e = ValueError)
  \/ (known_strategy strategy = false /\ e = ValueError).
Proof.
  unfold get_rate_limit_key, known_strategy.
  destruct (String.eqb_spec strategy "ip") as [->|Hip].
  { cbn [orb]. destruct (get_client_ip request) as [e'|ip] eqn:E; raising_simpl.
    - apply get_client_ip_raises in E as (Hh & Hc & ->). split.
      + intros [= <-]. left. auto.
      + intros [(_ & _ & _ & ->)|[(? & _)|(? & _)]]; done.
    - split; [done|]. intros [(_ & Hh & Hc & ->)|[(? & _)|(? & _)]]; try done.
      assert (get_client_ip request = inl AttributeError)
        by (by apply get_client_ip_raises). congruence. }
  destruct (String.eqb_spec strategy "user") as [->|Huser].
  { cbn [orb]. destruct (falsy user_id) eqn:F; split.
    - intros [= <-]. right. left. auto.
    - intros [([?|?] & _)|[(_ & _ & ->)|(? & _)]]; done.
    - done.
    - intros [([?|?] & _)|[(_ & ? & _)|(? & _)]]; done. }
  destruct (String.eqb_spec strategy "combined") as [->|Hcomb].
  { cbn [orb]. destruct (get_client_ip request) as [e'|ip] eqn:E; raising_simpl.
    - apply get_client_ip_raises in E as (Hh & Hc & ->). split.
      + intros [= <-]. left. auto.
      + intros [(_ & _ & _ & ->)|[(? & _)|(? & _)]]; done.
    - split.
      + by destruct (falsy user_id).
      + intros [(_ & Hh & Hc & ->)|[(? & _)|(? & _)]]; try done.
        assert (get_client_ip request = inl AttributeError)
          by (by apply get_client_ip_raises). congruence. }
  cbn [orb]. split.
  - intros [= <-]. right. right. auto.
  - intros [([?|?] & _)|[(? & _)|(_ & ->)]]; done.
Qed.

(** X12: without a user id the ['combined'] strategy builds the key of
    the ['ip'] strategy, so that both count in one bucket. *)
Theorem combined_without_user_is_ip request user_id user_id' :
  falsy user_id = true ->
  get_rate_limit_key request "combined" user_id
  = get_rate_limit_key request "ip" user_id'.
Proof.
  intros F. unfold get_rate_limit_key. cbn [String.eqb Ascii.eqb Bool.eqb].
  destruct (get_client_ip request); raising_simpl; [done|]. by rewrite F.
Qed.

Lemma combined_without_user_is_ip_witness :
  get_rate_limit_key (mkRequest None (Some "203.0.113.45") "/api/login")
    "combined" None
  = inr "ip:203.0.113.45:/api/login".
Proof.
  rewrite (combined_without_user_is_ip _ None None eq_refl). reflexivity.
Defined.

(** X13: keys of different kinds never coincide: an ['ip'] key, a
    ['user'] key and a ['combined'] key built with a user id are pairwise
    different, whatever addresses, ids and paths they are built from. *)
Theorem keys_of_different_tags_differ r1 r2 r3 u1 u2 u3 k1 k2 k3 :
  get_rate_limit_key r1 "ip" u1 = inr k1 ->
  get_rate_limit_key r2 "user" u2 = inr k2 ->
  get_rate_limit_key r3 "combined" u3 = inr k3 -> falsy u3 = false ->
  k1 ≠ k2 /\ k1 ≠ k3 /\ k2 ≠ k3.
Proof.
  unfold get_rate_limit_key. cbn [String.eqb Ascii.eqb Bool.eqb].
  destruct (get_client_ip r1); raising_simpl; [done|]. intros [= <-].
  destruct (falsy u2); [done|]. intros [= <-].
  destruct (get_client_ip r3); raising_simpl; [done|].
  intros H F. rewrite F in H. injection H as <-.
  repeat split; discriminate.
Qed.

Lemma keys_of_different_tags_differ_witness :
  "ip:alice:/p" ≠ "user:alice:/p".
Proof.
  apply (keys_of_different_tags_differ
           (mkRequest (Some "alice") None "/p") (mkRequest None None "/p")
           (mkRequest (Some "alice") None "/p")
           None (Some "alice") (Some "alice")
           "ip:alice:/p" "user:alice:/p" "combined:alice:alice:/p"
           eq_refl eq_refl eq_refl eq_refl).
Defined.

Lemma append_slash_inj a1 a2 b1 b2 :
  mem "/" a1 = false -> mem "/" a2 = false ->
  a1 +:+ String ":" (String "/" b1) = a2 +:+ String ":" (String "/" b2) ->
  a1 = a2 /\ b1 = b2.
Proof.
  revert a2. induction a1 as [|c a1 IH]; intros a2 H1 H2; simpl.
  - destruct a2 as [|d a2]; simpl; [by intros [= ->]|].
    intros [= <- E]. destruct a2 as [|d' a2]; simpl in E; [discriminate|].
    injection E as <- _. simpl in H2. discriminate.
  - simpl in H1. apply orb_false_iff in H1 as [Hc H1].
    destruct a2 as [|d a2]; simpl.
    + intros [= -> E]. destruct a1 as [|c' a1]; simpl in E; [discriminate|].
      injection E as -> _. simpl in H1. discriminate.
    + intros [= <- E]. simpl in H2. apply orb_false_iff in H2 as [_ H2].
      destruct (IH a2 H1 H2 E) as [-> ->]. done.
Qed.

(** X14: two requests counted under the same ['ip'] key have the same
    address and the same path, as long as the addresses hold no slash and
    the paths start with one: clients with different addresses never share
    a bucket, and neither do two endpoints for one client. *)
Theorem ip_keys_injective r1 r2 u1 u2 ip1 ip2 p1 p2 k :
  get_client_ip r1 = inr ip1 -> get_client_ip r2 = inr ip2 ->
  mem "/" ip1 = false -> mem "/" ip2 = false ->
  url_path r1 = String "/" p1 -> url_path r2 = String "/" p2 ->
  get_rate_limit_key r1 "ip" u1 = inr k ->
  get_rate_limit_key r2 "ip" u2 = inr k ->
  ip1 = ip2 /\ url_path r1 = url_path r2.
Proof.
  intros E1 E2 H1 H2 P1 P2. unfold get_rate_limit_key.
  cbn [String.eqb Ascii.eqb Bool.eqb]. rewrite E1, E2, P1, P2. raising_simpl.
  intros [= <-] [= E]. simpl in E.
  destruct (append_slash_inj _ _ _ _ H2 H1 E) as [-> ->]. done.
Qed.

Lemma ip_keys_injective_witness :
  let r1 := mkRequest (Some "2001:db8::1, 10.0.0.1") None "/api/login" in
  let r2 := mkRequest None (Some "2001:db8::1") "/api/login" in
  (@eq string "2001:db8::1" "2001:db8::1") /\ url_path r1 = url_path r2.
Proof.
  cbv zeta.
  apply (ip_keys_injective
           (mkRequest (Some "2001:db8::1, 10.0.0.1") None "/api/login")
           (mkRequest None (Some "2001:db8::1") "/api/login")
           None None "2001:db8::1" "2001:db8::1" "api/login" "api/login"
           "ip:2001:db8::1:/api/login"
           eq_refl eq_refl eq_refl eq_refl eq_refl eq_refl eq_refl eq_refl).
Defined.

(** Without that shape the key does not tell address and path apart. *)
Lemma ip_keys_can_collide :
  get_rate_limit_key (mkRequest (Some "10.0.0.1") None "/a:/b") "ip" None
  = get_rate_limit_key (mkRequest (Some "10.0.0.1:/a") None "/b") "ip" None.
Proof. reflexivity. Qed.

(** * Middleware, decorator and connection *)

(** ** Running composed coroutines *)

(** With a client that answers, [p] runs to its end before [f] starts. *)
Lemma run_bind {A B} (p : prog A) (f : A -> prog B) s :
  run (p ≫= f) [] s
  = match run p [] s with
    | (Returned a, s1) => run (f a) [] s1
    | (Raised e, s1) => (Raised e, s1)
    end.
Proof.
  revert s. induction p as [a|e|key k IH|key m k IH|key n k IH]; intros s;
    cbn [mbind prog_bind bind run tail]; try reflexivity; apply IH.
Qed.

Lemma prefix_append a b : String.prefix a (a +:+ b) = true.
Proof.
  induction a as [|c a IH]; simpl; [by destruct b|].
  destruct (ascii_dec c c); [exact IH|done].
Qed.

(** ** Paths that are not limited *)

(** X15: a request whose path starts with one of [SKIP_PATHS] goes
    straight to the application: the limiter issues no command and the
    response is handed back untouched, whatever the table of limits says
    about the path. *)
Theorem skipped_paths_bypass self request call_next now skip suffix :
  In skip SKIP_PATHS -> url_path request = skip +:+ suffix ->
  dispatch self request call_next now = call_next request.
Proof.
  intros Hin Hpath. unfold dispatch. cbv zeta.
  assert (H : existsb (fun skip => String.prefix skip (url_path request))
                SKIP_PATHS = true).
  { apply existsb_exists. exists skip. split; [exact Hin|].
    rewrite Hpath. apply prefix_append. }
  by rewrite H.
Qed.

Lemma skipped_paths_bypass_witness :
  let app (_ : Request) : prog Response := Ret (mkResponse 200 ∅ (Body "ok")) in
  dispatch (mkMiddleware (connect (init "redis://localhost:6379/0" true))
              {[ "/docs-internal/login" := mkConfig 5 60 (Some "ip") ]})
    (mkRequest None (Some "10.0.0.1") "/docs-internal/login") app (100 # 1)
  = Ret (mkResponse 200 ∅ (Body "ok")).
Proof.
  cbv zeta.
  apply (skipped_paths_bypass _ _ (fun _ => Ret (mkResponse 200 ∅ (Body "ok"))) _
           "/docs" "-internal/login").
  - cbn. auto.
  - reflexivity.
Defined.

Lemma default_limits_lookup path :
  path ≠ "/api/auth/login" -> path ≠ "/api/auth/register" ->
  path ≠ "/api/auth/reset-password" -> path ≠ "/api/contact" ->
  path ≠ "/api/newsletter" ->
  DEFAULT_RATE_LIMITS !! path = None.
Proof.
  intros H1 H2 H3 H4 H5. unfold DEFAULT_RATE_LIMITS.
  rewrite !lookup_insert_ne by done. by apply lookup_singleton_ne.
Qed.

(** X16: a middleware built without a table, or with an empty one, limits
    the five paths of [DEFAULT_RATE_LIMITS] and nothing else: the table is
    looked up with the exact path, so any other path, a limited path with
    a trailing slash or in another case included, reaches the application
    with no command issued and no header added. *)
Theorem default_limits_match_exact_paths limiter limits request call_next now :
  limits = None \/ limits = Some ∅ ->
  url_path request ≠ "/api/auth/login" ->
  url_path request ≠ "/api/auth/register" ->
  url_path request ≠ "/api/auth/reset-password" ->
  url_path request ≠ "/api/contact" ->
  url_path request ≠ "/api/newsletter" ->
  dispatch (middleware_init limiter limits) request call_next now
  = call_next request.
Proof.
  intros Hl H1 H2 H3 H4 H5. unfold dispatch. cbv zeta.
  destruct (existsb _ SKIP_PATHS); [reflexivity|].
  assert (Ht : rate_limits (middleware_init limiter limits) = DEFAULT_RATE_LIMITS)
    by (by destruct Hl as [-> | ->]).
  by rewrite Ht, default_limits_lookup.
Qed.

Lemma default_limits_match_exact_paths_witness :
  let app (_ : Request) : prog Response := Ret (mkResponse 200 ∅ (Body "ok")) in
  dispatch (middleware_init (connect (init "redis://localhost:6379/0" true))
              (Some ∅))
    (mkRequest None (Some "10.0.0.1") "/api/auth/login/") app (100 # 1)
  = Ret (mkResponse 200 ∅ (Body "ok")).
Proof.
  cbv zeta.
  apply (default_limits_match_exact_paths _ (Some ∅) _
           (fun _ => Ret (mkResponse 200 ∅ (Body "ok"))));
    [by right|discriminate..].
Defined.

(** ** The ['user'] strategy *)

(** X17: neither entry point ever passes a user id, so the ['user']
    strategy cannot be used: a request on a path configured with it makes
    [dispatch] raise [ValueError], and an endpoint decorated with it makes
    the wrapper raise [ValueError], in both cases before any command is
    issued and before the application is called. *)
Theorem user_strategy_always_raises self request call_next now config :
  existsb (fun skip => String.prefix skip (url_path request)) SKIP_PATHS = false ->
  rate_limits self !! url_path request = Some config ->
  config_strategy config = Some "user" ->
  dispatch self request call_next now = Raise ValueError
  /\ forall (func : Request -> prog Response) n w limiter,
       rate_limit n w "user" func limiter request now = Raise ValueError.
Proof.
  intros Hskip Hcfg Hs. split.
  - unfold dispatch. cbv zeta. rewrite Hskip, Hcfg, Hs. reflexivity.
  - reflexivity.
Qed.

Lemma user_strategy_always_raises_witness :
  let app (_ : Request) : prog Response := Ret (mkResponse 200 ∅ (Body "ok")) in
  dispatch (mkMiddleware (connect (init "redis://localhost:6379/0" true))
              {[ "/api/profile" := mkConfig 100 60 (Some "user") ]})
    (mkRequest None (Some "10.0.0.1") "/api/profile") app (100 # 1)
  = Raise ValueError.
Proof.
  cbv zeta.
  refine (proj1 (user_strategy_always_raises _ _ _ _
                   (mkConfig 100 60 (Some "user")) _ _ _)).
  - reflexivity.
  - by_vm.
  - reflexivity.
Defined.

(** ** Responses of the middleware *)

Lemma key_built_has_ip request strategy key :
  get_rate_limit_key request strategy None = inr key ->
  exists ip, get_client_ip request = inr ip.
Proof.
  unfold get_rate_limit_key.
  destruct (String.eqb strategy "ip").
  { destruct (get_client_ip request); [done|]. eauto. }
  destruct (String.eqb strategy "user"); [done|].
  destruct (String.eqb strategy "combined"); [|done].
  destruct (get_client_ip request); [done|]. eauto.
Qed.

(** [dispatch] on a limited path, once the key is built and the limiter
    has answered. *)
Lemma dispatch_limited self request call_next now config key d s s1 :
  existsb (fun skip => String.prefix skip (url_path request)) SKIP_PATHS = false ->
  rate_limits self !! url_path request = Some config ->
  get_rate_limit_key request (default "ip" (config_strategy config)) None = inr key ->
  check (rate_limiter self) key (config_limit config) (config_window config) now s
  = (Returned d, s1) ->
  run (dispatch self request call_next now) [] s
  = let finish response :=
      let response :=
        set_header response "X-RateLimit-Limit" (py_str_int (limit d)) in
      let response :=
        set_header response "X-RateLimit-Remaining" (py_str_int (remaining d)) in
      let response :=
        set_header response "X-RateLimit-Reset" (py_str_int (reset d)) in
      if negb (allowed d)
      then set_header response "Retry-After" (py_str_int (retry_after d))
      else response in
    if allowed d then
      match run (call_next request) [] s1 with
      | (Returned response, s2) => (Returned (finish response), s2)
      | (Raised e, s2) => (Raised e, s2)
      end
    else
      (Returned (finish (JSONResponse 429
                           (RateLimitExceeded "Rate limit exceeded"
                              ("Too many requests. Please try again in "
                               +:+ py_str_int (retry_after d) +:+ " seconds.")
                              (retry_after d)))), s1).
Proof.
  intros Hskip Hcfg Hkey Hrun. unfold dispatch. cbv zeta.
  rewrite Hskip, Hcfg, Hkey. cbn [lift mbind prog_bind bind].
  change (bind ?p ?f) with (p ≫= f).
  rewrite run_bind. unfold check in Hrun. rewrite Hrun.
  rewrite run_bind.
  destruct (allowed d) eqn:Hal.
  - destruct (run (call_next request) [] s1) as [[response|e] s2]; reflexivity.
  - destruct (key_built_has_ip _ _ _ Hkey) as [ip Hip]. rewrite Hip. reflexivity.
Qed.

(** X18: a request that the limiter denies is answered with status 429,
    the JSON error body, [X-RateLimit-Remaining: 0] and a [Retry-After] of
    the whole window; the answer does not depend on the application
    behind, which is not called. *)
Theorem denied_request_gets_429 self request call_next now config key d s s1 :
  existsb (fun skip => String.prefix skip (url_path request)) SKIP_PATHS = false ->
  rate_limits self !! url_path request = Some config ->
  get_rate_limit_key request (default "ip" (config_strategy config)) None = inr key ->
  (0 <= config_limit config)%Z ->
  check (rate_limiter self) key (config_limit config) (config_window config) now s
  = (Returned d, s1) ->
  allowed d = false ->
  run (dispatch self request call_next now) [] s
  = (Returned
       (mkResponse 429
          (<["retry-after" := py_str_int (config_window config)]>
             (<["x-ratelimit-reset" :=
                  py_str_int (trunc (now + inject_Z (config_window config)))]>
                (<["x-ratelimit-remaining" := "0"]>
                   (<["x-ratelimit-limit" := py_str_int (config_limit config)]> ∅))))
          (RateLimitExceeded "Rate limit exceeded"
             ("Too many requests. Please try again in "
              +:+ py_str_int (config_window config) +:+ " seconds.")
             (config_window config))),
     s1).
Proof.
  intros Hskip Hcfg Hkey Hcap Hrun Hden.
  rewrite (dispatch_limited _ _ _ _ _ _ _ _ _ Hskip Hcfg Hkey Hrun). cbv zeta.
  destruct (returned_decision _ _ _ _ _ _ _ _ _ Hcap Hrun)
    as (Hl & _ & Hr & Hd & _).
  destruct (Hd Hden) as [Hrem Hret].
  rewrite Hden, Hl, Hr, Hrem, Hret. reflexivity.
Qed.

Lemma denied_request_gets_429_witness :
  let limiter := connect (init "redis://localhost:6379/0" true) in
  let request := mkRequest None (Some "203.0.113.45") "/api/auth/login" in
  let app (_ : Request) : prog Response := Ret (mkResponse 200 ∅ (Body "ok")) in
  let s := snd (sequential 5 limiter "ip:203.0.113.45:/api/auth/login" 5 60
                  (100 # 1) ∅) in
  exists response,
    run (dispatch (middleware_init limiter None) request app (100 # 1)) [] s
    = (Returned response, s)
    /\ status_code response = 429%Z
    /\ headers response !! "retry-after" = Some "60".
Proof.
  cbv zeta. eexists. split.
  - apply (denied_request_gets_429
             (middleware_init (connect (init "redis://localhost:6379/0" true)) None)
             (mkRequest None (Some "203.0.113.45") "/api/auth/login")
             (fun _ => Ret (mkResponse 200 ∅ (Body "ok"))) (100 # 1)
             (mkConfig 5 60 (Some "ip"))
             "ip:203.0.113.45:/api/auth/login" (mkDecision false 5 0 160 60)).
    + reflexivity.
    + by_vm.
    + reflexivity.
    + cbn. lia.
    + by_vm.
    + reflexivity.
  - split; [reflexivity|by_vm].
Defined.

Lemma returned_limit_reset self key max_requests window_seconds now s d s1 :
  check self key max_requests window_seconds now s = (Returned d, s1) ->
  limit d = max_requests /\ reset d = trunc (now + inject_Z window_seconds).
Proof.
  unfold check. rewrite run_check_rate_limit. unfold check_direct.
  rewrite !fault_at_nil. intros Hrun.
  destruct (redis self); [|discriminate].
  destruct (take_token _ _ _ _) as [e|tokens] eqn:Etake.
  - apply take_token_not_connection_error in Etake.
    unfold caught in Hrun. rewrite Etake in Hrun. discriminate.
  - assert (Hfin : finish self max_requests window_seconds now
                     (response max_requests window_seconds now tokens
                        (geb tokens (of_int 0))) = Returned d)
      by (destruct (geb tokens (of_int 0)); by injection Hrun).
    unfold finish, response in Hfin.
    destruct (py_int tokens) as [e|n] eqn:Ei; cbn [mbind raising_bind] in Hfin.
    + unfold caught in Hfin.
      destruct tokens; cbn in Ei; try discriminate; injection Ei as <-;
        discriminate.
    + by injection Hfin as <-.
Qed.

(** X19: a request that the limiter allows gets the response of the
    application with the three [X-RateLimit-*] headers set to the limit,
    the remaining tokens and the reset time; status, body and every other
    header, a [Retry-After] of the application included, are untouched. *)
Theorem allowed_request_gets_headers self request call_next now config key d
    s s1 answer s2 :
  existsb (fun skip => String.prefix skip (url_path request)) SKIP_PATHS = false ->
  rate_limits self !! url_path request = Some config ->
  get_rate_limit_key request (default "ip" (config_strategy config)) None = inr key ->
  check (rate_limiter self) key (config_limit config) (config_window config) now s
  = (Returned d, s1) ->
  allowed d = true ->
  run (call_next request) [] s1 = (Returned answer, s2) ->
  exists response',
    run (dispatch self request call_next now) [] s = (Returned response', s2)
    /\ status_code response' = status_code answer
    /\ content response' = content answer
    /\ headers response' !! "x-ratelimit-limit"
       = Some (py_str_int (config_limit config))
    /\ headers response' !! "x-ratelimit-remaining"
       = Some (py_str_int (remaining d))
    /\ headers response' !! "x-ratelimit-reset"
       = Some (py_str_int (trunc (now + inject_Z (config_window config))))
    /\ forall name,
         name ≠ "x-ratelimit-limit" -> name ≠ "x-ratelimit-remaining" ->
         name ≠ "x-ratelimit-reset" ->
         headers response' !! name = headers answer !! name.
Proof.
  intros Hskip Hcfg Hkey Hrun Hal Hnext.
  rewrite (dispatch_limited _ _ _ _ _ _ _ _ _ Hskip Hcfg Hkey Hrun). cbv zeta.
  rewrite Hal, Hnext. cbn [negb].
  destruct (returned_limit_reset _ _ _ _ _ _ _ _ Hrun) as [Hl Hr].
  rewrite Hl, Hr.
  eexists. split; [reflexivity|].
  unfold set_header. cbn [status_code content headers].
  change (lower "X-RateLimit-Limit") with "x-ratelimit-limit".
  change (lower "X-RateLimit-Remaining") with "x-ratelimit-remaining".
  change (lower "X-RateLimit-Reset") with "x-ratelimit-reset".
  repeat split.
  - rewrite !lookup_insert_ne by done. apply lookup_insert_eq.
  - rewrite lookup_insert_ne by done. apply lookup_insert_eq.
  - apply lookup_insert_eq.
  - intros name H1 H2 H3. by rewrite !lookup_insert_ne.
Qed.

Lemma allowed_request_gets_headers_witness :
  let limiter := connect (init "redis://localhost:6379/0" true) in
  let request := mkRequest None (Some "203.0.113.45") "/api/auth/login" in
  let app (_ : Request) : prog Response := Ret (mkResponse 200 ∅ (Body "ok")) in
  exists response s',
    run (dispatch (middleware_init limiter None) request app (100 # 1)) [] ∅
    = (Returned response, s')
    /\ status_code response = 200%Z
    /\ headers response !! "x-ratelimit-remaining" = Some "4".
Proof.
  cbv zeta.
  destruct (allowed_request_gets_headers
              (middleware_init (connect (init "redis://localhost:6379/0" true)) None)
              (mkRequest None (Some "203.0.113.45") "/api/auth/login")
              (fun _ => Ret (mkResponse 200 ∅ (Body "ok"))) (100 # 1)
              (mkConfig 5 60 (Some "ip")) "ip:203.0.113.45:/api/auth/login"
              (mkDecision true 5 4 160 0) ∅
              (snd (check (connect (init "redis://localhost:6379/0" true))
                      "ip:203.0.113.45:/api/auth/login" 5 60 (100 # 1) ∅))
              (mkResponse 200 ∅ (Body "ok"))
              (snd (check (connect (init "redis://localhost:6379/0" true))
                      "ip:203.0.113.45:/api/auth/login" 5 60 (100 # 1) ∅)))
    as (response & Hrun & Hst & _ & _ & Hrem & _).
  - reflexivity.
  - by_vm.
  - reflexivity.
  - by_vm.
  - reflexivity.
  - reflexivity.
  - exists response. eexists. split; [exact Hrun|]. split; [exact Hst|exact Hrem].
Defined.

(** ** The decorator *)

(** X20: under the decorator a denied request never reaches the endpoint:
    the wrapper raises [HTTPException] 429 with [X-RateLimit-Remaining]
    at ["0"] and [Retry-After] at the whole window, whatever the endpoint
    is.  An allowed request gets the endpoint's own result, to which the
    wrapper adds nothing. *)
Theorem decorator_contract {A} limiter request strategy key n w now s d s1 :
  get_rate_limit_key request strategy None = inr key ->
  (0 <= n)%Z ->
  check limiter key n w now s = (Returned d, s1) ->
  (allowed d = false ->
   forall func : Request -> prog A,
     run (rate_limit n w strategy func limiter request now) [] s
     = (Returned
          (inl (mkHTTPException 429 "Rate limit exceeded" w
                  {[ "X-RateLimit-Limit" := py_str_int n;
                     "X-RateLimit-Remaining" := "0";
                     "X-RateLimit-Reset" := py_str_int (trunc (now + inject_Z w));
                     "Retry-After" := py_str_int w ]})), s1))
  /\ (allowed d = true ->
      forall func : Request -> prog A,
        run (rate_limit n w strategy func limiter request now) [] s
        = match run (func request) [] s1 with
          | (Returned r, s2) => (Returned (inr r), s2)
          | (Raised e, s2) => (Raised e, s2)
          end).
Proof.
  intros Hkey Hn Hrun.
  destruct (returned_decision _ _ _ _ _ _ _ _ _ Hn Hrun) as (Hl & _ & Hr & Hd & _).
  assert (Hstep : forall func : Request -> prog A,
             run (rate_limit n w strategy func limiter request now) [] s
             = run (if negb (allowed d)
                    then Ret (inl (mkHTTPException 429 "Rate limit exceeded"
                                     (retry_after d)
                                     {[ "X-RateLimit-Limit" := py_str_int (limit d);
                                        "X-RateLimit-Remaining" := "0";
                                        "X-RateLimit-Reset" := py_str_int (reset d);
                                        "Retry-After" := py_str_int (retry_after d) ]}))
                    else r ← func request; Ret (inr r)) [] s1).
  { intros func. unfold rate_limit. cbv zeta. rewrite Hkey.
    cbn [lift mbind prog_bind bind]. change (bind ?p ?f) with (p ≫= f).
    rewrite run_bind. unfold check in Hrun. by rewrite Hrun. }
  split; intros Hal func; rewrite Hstep, Hal; cbn [negb].
  - destruct (Hd Hal) as [_ Hret]. by rewrite Hl, Hr, Hret.
  - rewrite run_bind. by destruct (run (func request) [] s1) as [[r|e] s2].
Qed.

Lemma decorator_contract_witness :
  let limiter := connect (init "redis://localhost:6379/0" true) in
  let request := mkRequest None (Some "203.0.113.45") "/api/login" in
  let login (_ : Request) : prog string := Ret "welcome" in
  fst (run (rate_limit 5 60 "ip" login limiter request (100 # 1)) [] ∅)
  = Returned (inr "welcome").
Proof.
  cbv zeta.
  rewrite (proj2 (decorator_contract
                    (connect (init "redis://localhost:6379/0" true))
                    (mkRequest None (Some "203.0.113.45") "/api/login")
                    "ip" "ip:203.0.113.45:/api/login" 5 60 (100 # 1) ∅
                    (mkDecision true 5 4 160 0)
                    (snd (check (connect (init "redis://localhost:6379/0" true))
                            "ip:203.0.113.45:/api/login" 5 60 (100 # 1) ∅))
                    eq_refl ltac:(lia) ltac:(by_vm)) eq_refl).
  reflexivity.
Defined.

(** ** Middleware and decorator on one endpoint *)

(** X21: when a path is limited by the middleware and its endpoint by the
    decorator, with the same ['ip'] strategy, both count in one bucket:
    a request that passes takes two tokens, and the [X-RateLimit-Remaining]
    header, written by the middleware, is one above what the bucket
    holds. *)
Theorem middleware_and_decorator_count_twice self request key n w m now s
    (answer : Response) (render : HTTPException + Response -> Response) :
  existsb (fun skip => String.prefix skip (url_path request)) SKIP_PATHS = false ->
  rate_limits self !! url_path request = Some (mkConfig n w (Some "ip")) ->
  get_rate_limit_key request "ip" None = inr key ->
  redis (rate_limiter self) = Some RedisClient ->
  (0 < w)%Z -> (2 <= m <= n)%Z -> holds s key m now ->
  exists resp s',
    run (dispatch self request
           (decorated n w "ip" (fun _ => Ret answer) render (rate_limiter self) now)
           now) [] s
    = (Returned resp, s')
    /\ holds s' key (m - 2) now
    /\ headers resp !! "x-ratelimit-remaining" = Some (py_str_int (m - 1)).
Proof.
  intros Hskip Hcfg Hkey Hc Hw Hm Hs.
  destruct (check_takes_one (rate_limiter self) key n w now s m Hc Hw
              ltac:(lia) Hs) as (d1 & s1 & Hrun1 & Hal1 & Hrem1 & Hs1).
  destruct (check_takes_one (rate_limiter self) key n w now s1 (m - 1) Hc Hw
              ltac:(lia) Hs1) as (d2 & s2 & Hrun2 & Hal2 & _ & Hs2).
  rewrite (dispatch_limited self request _ now (mkConfig n w (Some "ip")) key d1 s s1
             Hskip Hcfg Hkey Hrun1).
  cbv zeta. rewrite Hal1.
  assert (Hnext : run (decorated n w "ip" (fun _ => Ret answer) render
                         (rate_limiter self) now request) [] s1
                  = (Returned (render (inr answer)), s2)).
  { unfold decorated, rate_limit. cbv zeta. rewrite Hkey.
    cbn [lift mbind prog_bind bind]. change (bind ?p ?f) with (p ≫= f).
    rewrite !run_bind. unfold check in Hrun2. rewrite Hrun2, Hal2. reflexivity. }
  rewrite Hnext. cbn [negb].
  eexists _, _. split; [reflexivity|]. split.
  - replace (m - 2)%Z with (m - 1 - 1)%Z by lia. exact Hs2.
  - unfold set_header. cbn [headers].
    change (lower "X-RateLimit-Remaining") with "x-ratelimit-remaining".
    change (lower "X-RateLimit-Reset") with "x-ratelimit-reset".
    rewrite lookup_insert_ne by done. rewrite lookup_insert_eq. by rewrite Hrem1.
Qed.

Lemma middleware_and_decorator_count_twice_witness :
  let limiter := connect (init "redis://localhost:6379/0" true) in
  let request := mkRequest None (Some "203.0.113.45") "/api/auth/login" in
  let s := snd (check limiter "ip:203.0.113.45:/api/auth/login" 5 60 (100 # 1) ∅) in
  exists resp s',
    run (dispatch (middleware_init limiter None) request
           (decorated 5 60 "ip" (fun _ => Ret (mkResponse 200 ∅ (Body "ok")))
              (fun r => match r with
                        | inr resp => resp
                        | inl exc => mkResponse (exc_status_code exc) ∅ (Body "")
                        end)
              limiter (100 # 1))
           (100 # 1)) [] s
    = (Returned resp, s')
    /\ holds s' "ip:203.0.113.45:/api/auth/login" 2 (100 # 1)
    /\ headers resp !! "x-ratelimit-remaining" = Some "3".
Proof.
  cbv zeta.
  apply (middleware_and_decorator_count_twice
           (middleware_init (connect (init "redis://localhost:6379/0" true)) None)
           (mkRequest None (Some "203.0.113.45") "/api/auth/login")
           "ip:203.0.113.45:/api/auth/login" 5 60 4 (100 # 1)).
  - reflexivity.
  - by_vm.
  - reflexivity.
  - reflexivity.
  - lia.
  - lia.
  - exists (Entry (bucket_mapping (of_int 4) (100 # 1)) (Some 120%Z)),
      (inject_Z 4), (100 # 1).
    split; [by_vm|]. split; [by_vm|]. split; [reflexivity|].
    split; [by_vm|reflexivity].
Defined.

(** ** Connecting in fail-open mode *)

(** X22: in fail-open mode [connect] never raises.  When the client could
    not even be built, the limiter is left without one and every later
    call of [check_rate_limit] raises [AttributeError] instead of failing
    open; when only the first PING failed, the limiter is the one a
    successful [connect] gives. *)
Theorem fail_open_connect_swallows_failures url e ping key n w now faults s :
  let broken := connect_attempt (init url true) (inl e) ping in
  fst broken = None
  /\ run (check_rate_limit (snd broken) key n w now) faults s
     = (Raised AttributeError, s)
  /\ connect_attempt (init url true) (inr RedisClient) (Some e)
     = (None, connect (init url true)).
Proof.
  cbv zeta. split; [reflexivity|]. split; [|reflexivity].
  rewrite run_check_rate_limit. reflexivity.
Qed.
